(** * SACPolicy: the orchestration logic of ml-agents' Soft Actor-Critic policy

    A shallow embedding of [ml-agents/mlagents/trainers/sac/policy.py]:
    the construction of the reward-signal registry, the feed dictionaries
    built by [evaluate], [update] and [get_value_estimates], the calls made
    on the TensorFlow session, and the reward bookkeeping.

    Python dictionaries whose iteration order matters (the registry, the
    output dictionaries) are insertion-ordered association lists; the feed
    dictionary and the minibatch, which are only looked up, are [gmap]s.
    numpy arrays are a shape together with the row-major list of elements.
    Exceptions are a result type; the TensorFlow session and the caller's
    [BrainInfo] object are threaded through a state-and-error monad. *)

From Stdlib Require Import ZArith List Bool PrimFloat.
From stdpp Require Import base option list gmap strings pretty fin_maps.

Open Scope Z_scope.

(** ** Python exceptions and results *)

Inductive py_error :=
  | KeyError (key : string)
  | IndexError
  | ValueError
  | TypeError.

Inductive result (A : Type) :=
  | Ok (a : A)
  | Raise (e : py_error).
Arguments Ok {A} a.
Arguments Raise {A} e.

Definition is_ok {A} (r : result A) : bool :=
  match r with Ok _ => true | Raise _ => false end.

(** A computation over a mutable state [S] that may raise: an exception
    keeps the state as it was when it was raised. *)
Definition M (S A : Type) : Type := S -> result A * S.

Definition ret {S A} (a : A) : M S A := fun s => (Ok a, s).

Definition bind {S A B} (c : M S A) (k : A -> M S B) : M S B :=
  fun s => match c s with
           | (Ok a, s') => k a s'
           | (Raise e, s') => (Raise e, s')
           end.

Definition lift {S A} (r : result A) : M S A := fun s => (r, s).

Declare Scope py_scope.
Delimit Scope py_scope with py.
Notation "x <- c ;; k" := (bind c (fun x => k))
  (at level 100, c at next level, right associativity) : py_scope.
Notation "c ;;; k" := (bind c (fun _ => k))
  (at level 100, right associativity) : py_scope.
Open Scope py_scope.

(** The pure fragment: a result-only bind for array manipulations. *)
Definition rbind {A B} (r : result A) (k : A -> result B) : result B :=
  match r with Ok a => k a | Raise e => Raise e end.
Notation "x <~ r ;; k" := (rbind r (fun x => k))
  (at level 100, r at next level, right associativity) : py_scope.

(** ** Insertion-ordered dictionaries *)

Section OrderedDict.
Context {V : Type}.

Definition odict := list (string * V).

Fixpoint dict_get (d : odict) (k : string) : option V :=
  match d with
  | [] => None
  | (k', v) :: d' => if String.eqb k' k then Some v else dict_get d' k
  end.

(** [d[k] = v]: an existing key keeps its position, a new one goes last. *)
Fixpoint dict_set (d : odict) (k : string) (v : V) : odict :=
  match d with
  | [] => [(k, v)]
  | (k', v') :: d' =>
      if String.eqb k' k then (k', v) :: d' else (k', v') :: dict_set d' k v
  end.

Definition dict_keys (d : odict) : list string := map fst d.
Definition dict_values (d : odict) : list V := map snd d.

(** [dict(zip(ks, vs))] *)
Definition dict_of_zip (ks : list string) (vs : list V) : odict :=
  fold_left (fun d kv => dict_set d (fst kv) (snd kv)) (combine ks vs) [].
End OrderedDict.
Arguments odict V : clear implicits.

(** Position of a key in a list of names ([list.index], as an option). *)
Fixpoint index_of (k : string) (l : list string) : option nat :=
  match l with
  | [] => None
  | k' :: l' => if String.eqb k' k then Some O else S <$> index_of k l'
  end.

(** ** numpy arrays *)

Record ndarray := NDArray { shape : list nat; data : list float }.

Definition size_of (sh : list nat) : nat := fold_right Nat.mul 1%nat sh.

Definition all_zero (a : ndarray) : Prop :=
  Forall (fun x => x = 0%float) (data a).

(** [np.zeros(sh)] *)
Definition np_zeros (sh : list nat) : ndarray :=
  NDArray sh (replicate (size_of sh) 0%float).

(** [len(a)] *)
Definition np_len (a : ndarray) : result nat :=
  match shape a with
  | n :: _ => Ok n
  | [] => Raise TypeError
  end.

(** [a.shape[i]] *)
Definition shape_at (a : ndarray) (i : nat) : result nat :=
  match shape a !! i with
  | Some n => Ok n
  | None => Raise IndexError
  end.

(** [a.flatten()] *)
Definition flatten (a : ndarray) : ndarray :=
  NDArray [size_of (shape a)] (data a).

(** [a.reshape(dims)]: at most one dimension may be [-1]; it is inferred
    from the element count, which the other dimensions must divide. *)
Definition reshape (a : ndarray) (dims : list Z) : result ndarray :=
  let size := size_of (shape a) in
  let known := size_of (map Z.to_nat (filter (fun d => d ≠ -1) dims)) in
  if existsb (fun d => d <? -1) dims then Raise ValueError
  else match length (filter (fun d => d = -1) dims) with
       | O => if (known =? size)%nat
              then Ok (NDArray (map Z.to_nat dims) (data a))
              else Raise ValueError
       | S O => if (known =? 0)%nat || negb (size mod known =? 0)%nat
                then Raise ValueError
                else Ok (NDArray
                           (map (fun d => if d =? -1 then (size / known)%nat
                                          else Z.to_nat d) dims)
                           (data a))
       | _ => Raise ValueError
       end.

(** A Python index into a sequence of length [n]: negative indices count
    from the end. *)
Definition py_index (n : nat) (idx : Z) : option nat :=
  if (0 <=? idx) && (idx <? Z.of_nat n) then Some (Z.to_nat idx)
  else if (- Z.of_nat n <=? idx) && (idx <? 0) then Some (Z.to_nat (Z.of_nat n + idx))
  else None.

(** [a[idx]]: the [idx]-th block along the first axis. *)
Definition np_getitem (a : ndarray) (idx : Z) : result ndarray :=
  match shape a with
  | [] => Raise IndexError
  | n :: rest =>
      match py_index n idx with
      | None => Raise IndexError
      | Some k =>
          Ok (NDArray rest (take (size_of rest) (drop (k * size_of rest) (data a))))
      end
  end.

(** [a[:, 0, :]]: the first timestep of every sequence. *)
Definition first_timestep (a : ndarray) : result ndarray :=
  match shape a with
  | b :: l :: ((_ :: _) as tl) =>
      if (l =? 0)%nat then Raise IndexError
      else Ok (NDArray (b :: tl)
                 (flat_map (fun i => take (size_of tl) (drop (i * (l * size_of tl)) (data a)))
                           (seq 0 b)))
  | _ => Raise IndexError
  end.

(** [lst[i]] on a Python list with an in-range natural index. *)
Definition list_getitem {A} (l : list A) (i : nat) : result A :=
  match l !! i with
  | Some x => Ok x
  | None => Raise IndexError
  end.

(** ** The model boundary: bindable inputs and readable outputs *)

(** The input slots of [self.model] that the policy binds. *)
Inductive placeholder :=
  | model_batch_size
  | model_sequence_length
  | model_mask_input
  | model_rewards_holder (i : nat)
  | model_action_holder
  | model_prev_action
  | model_action_masks
  | model_vector_in
  | model_next_vector_in
  | model_visual_in (i : nat)
  | model_next_visual_in (i : nat)
  | model_memory_in
  | model_dones_holder
  | model_new_reward.

Definition placeholder_code (p : placeholder) : nat * nat :=
  match p with
  | model_batch_size => (0, 0)
  | model_sequence_length => (1, 0)
  | model_mask_input => (2, 0)
  | model_rewards_holder i => (3, i)
  | model_action_holder => (4, 0)
  | model_prev_action => (5, 0)
  | model_action_masks => (6, 0)
  | model_vector_in => (7, 0)
  | model_next_vector_in => (8, 0)
  | model_visual_in i => (9, i)
  | model_next_visual_in i => (10, i)
  | model_memory_in => (11, 0)
  | model_dones_holder => (12, 0)
  | model_new_reward => (13, 0)
  end%nat.

Definition placeholder_decode (c : nat * nat) : placeholder :=
  match c with
  | (0, _) => model_batch_size
  | (1, _) => model_sequence_length
  | (2, _) => model_mask_input
  | (3, i) => model_rewards_holder i
  | (4, _) => model_action_holder
  | (5, _) => model_prev_action
  | (6, _) => model_action_masks
  | (7, _) => model_vector_in
  | (8, _) => model_next_vector_in
  | (9, i) => model_visual_in i
  | (10, i) => model_next_visual_in i
  | (11, _) => model_memory_in
  | (12, _) => model_dones_holder
  | _ => model_new_reward
  end%nat.

#[global] Instance placeholder_eq_dec : EqDecision placeholder.
Proof. solve_decision. Defined.

#[global] Instance placeholder_countable : Countable placeholder.
Proof.
  apply (inj_countable' placeholder_code placeholder_decode).
  intros []; reflexivity.
Defined.

(** The output endpoints of [self.model] that can be fetched. *)
Inductive fetch :=
  | model_output
  | model_all_log_probs
  | model_value
  | model_entropy
  | model_learning_rate
  | model_memory_out
  | model_update_normalization
  | model_total_value_loss
  | model_policy_loss
  | model_q1_loss
  | model_q2_loss
  | model_ent_coef
  | model_update_batch_policy
  | model_update_batch_value
  | model_update_batch_entropy
  | model_target_init_op
  | model_target_update_op
  | model_last_reward
  | model_update_reward.

#[global] Instance fetch_eq_dec : EqDecision fetch.
Proof. solve_decision. Defined.

(** Values bound in a feed dictionary. *)
Inductive feed_value :=
  | FInt (n : Z)
  | FFloat (x : float)
  | FArr (a : ndarray)
  | FList (l : list ndarray).

Abbreviation feed_dict := (gmap placeholder feed_value).

(** Values coming back from the session, and the fields of an
    [ActionInfo]. *)
Inductive pyval :=
  | PyNone
  | PyEmptyList
  | PyFloat (x : float)
  | PyArr (a : ndarray).

(** The numeric model behind the boundary: any implementation of this
    interface can stand behind the policy. *)
Class Engine := {
  params : Type;
  norm_stats : Type;
  (** value of a tensor endpoint under a feed *)
  forward : fetch -> feed_dict -> params -> params -> norm_stats -> pyval;
  (** one optimiser pass of the given update endpoint on the online parameters *)
  train_step : fetch -> feed_dict -> params -> params -> params;
  (** soft update of the target parameters toward the online ones *)
  polyak : params -> params -> params;
  (** accumulation of the running normalisation statistics *)
  norm_step : feed_dict -> norm_stats -> norm_stats;
  (** freshly initialised and checkpointed variables *)
  initial_params : params;
  initial_norm : norm_stats;
  saved_params : params * params;
  saved_norm : norm_stats;
  saved_reward : float;
}.

Section Session.
Context `{Engine}.

(** The variables of the TensorFlow graph. *)
Record graph_state := Graph {
  online : params;
  target : params;
  norm : norm_stats;
  last_reward : float;
}.

(** What the session was asked to do, in order. *)
Inductive event :=
  | EvLoadGraph
  | EvInitGraph
  | EvRun (fetches : list fetch) (fd : feed_dict).

Record session := Session {
  graph : graph_state;
  calls : list event;
}.

(** Modelled from the spec: the graph behind [sess.run] is built by
    [SACModel], which is not part of this file.  The rolling reward is a
    persistent scalar read by [last_reward] and overwritten by
    [update_reward] with the value fed to [new_reward]; the target
    synchronisation moves the target parameters toward the online ones;
    the three update endpoints write the online parameters; only the
    normalisation endpoint writes the normalisation statistics.  Every
    other endpoint is a read. *)
Definition run_write (fd : feed_dict) (g : graph_state) (f : fetch) : graph_state :=
  match f with
  | model_update_batch_policy
  | model_update_batch_value
  | model_update_batch_entropy =>
      Graph (train_step f fd (online g) (target g)) (target g) (norm g) (last_reward g)
  | model_update_normalization =>
      Graph (online g) (target g) (norm_step fd (norm g)) (last_reward g)
  | model_target_init_op =>
      Graph (online g) (online g) (norm g) (last_reward g)
  | model_target_update_op =>
      Graph (online g) (polyak (online g) (target g)) (norm g) (last_reward g)
  | model_update_reward =>
      match fd !! model_new_reward with
      | Some (FFloat x) => Graph (online g) (target g) (norm g) x
      | _ => g
      end
  | _ => g
  end.

Definition run_read (fd : feed_dict) (g : graph_state) (f : fetch) : pyval :=
  match f with
  | model_last_reward => PyFloat (last_reward g)
  | model_update_normalization
  | model_update_batch_policy
  | model_update_batch_value
  | model_update_batch_entropy
  | model_target_init_op
  | model_target_update_op
  | model_update_reward => PyNone
  | _ => forward f fd (online g) (target g) (norm g)
  end.

Definition graph_run (fetches : list fetch) (fd : feed_dict) (g : graph_state)
  : list pyval * graph_state :=
  (map (run_read fd g) fetches, fold_left (run_write fd) fetches g).

(** [self.sess.run(fetches, feed_dict=fd)] with a list of fetches. *)
Definition sess_run (fetches : list fetch) (fd : feed_dict) : M session (list pyval) :=
  fun s =>
    let '(out, g') := graph_run fetches fd (graph s) in
    (Ok out, Session g' (calls s ++ [EvRun fetches fd])).

(** [self.sess.run(f, feed_dict=fd)] with a single fetch. *)
Definition sess_run1 (f : fetch) (fd : feed_dict) : M session pyval :=
  fun s =>
    let '(out, g') := graph_run [f] fd (graph s) in
    (Ok (hd PyNone out), Session g' (calls s ++ [EvRun [f] fd])).

(** Modelled from the spec: [Policy._load_graph] and
    [Policy._initialize_graph] belong to the base class, which is not part
    of this file; they restore the checkpointed variables, respectively
    initialise fresh ones. *)
Definition _load_graph : M session unit :=
  fun s => (Ok tt, Session (Graph (fst saved_params) (snd saved_params) saved_norm saved_reward)
                           (calls s ++ [EvLoadGraph])).

Definition _initialize_graph : M session unit :=
  fun s => (Ok tt, Session (Graph initial_params initial_params initial_norm 0%float)
                           (calls s ++ [EvInitGraph])).

(** Modelled from the spec: [Policy._execute_model] belongs to the base
    class; it runs the endpoints of an output dictionary in one session
    call and returns the results under the same keys. *)
Definition _execute_model (fd : feed_dict) (out_dict : odict fetch)
  : M session (odict pyval) :=
  network_out <- sess_run (dict_values out_dict) fd ;;
  ret (dict_of_zip (dict_keys out_dict) network_out).
End Session.

(** ** Observation batches, configuration and the policy object *)

(** The fields of a [BrainInfo] that the policy reads or writes. *)
Record BrainInfo := {
  visual_observations : list ndarray;
  vector_observations : ndarray;
  memories : ndarray;
  previous_vector_actions : ndarray;
  agents : list Z;
}.

Definition set_memories_field (m : ndarray) (bi : BrainInfo) : BrainInfo :=
  {| visual_observations := visual_observations bi;
     vector_observations := vector_observations bi;
     memories := m;
     previous_vector_actions := previous_vector_actions bi;
     agents := agents bi |}.

Record BrainParameters := {
  vector_action_space_size : list Z;
  number_visual_observations : nat;
}.

(** The entries of [trainer_params] read by the constructor. *)
Record TrainerParams := {
  cfg_reward_signals : list string;
  cfg_reward_strength : list float;
  cfg_normalize : bool;
  cfg_learning_rate : float;
  cfg_hidden_units : Z;
  cfg_curiosity_enc_size : float;
  cfg_demo_path : string;
}.

Inductive RewardSignal :=
  | ExtrinsicSignal (strength : float)
  | CuriositySignal (strength : float) (encoding_size : float)
  | GAILSignal (h_size : Z) (lr : float) (demo_path : string) (strength : float)
  | EntropySignal (strength : float).

(** What the policy sees of [SACModel]: the sizes of its lists of input
    slots and the names its reward slots were created for. *)
Record SACModel := {
  act_size : list Z;
  vis_obs_size : Z;
  visual_in_count : nat;
  next_visual_in_count : nat;
  stream_names : list string;
}.

(** Modelled from the spec: [SACModel] is defined in
    [mlagents.trainers.sac.models], not in this file.  The spec gives the
    model parallel reward-input slots, bound by position (sections 3 and
    4.1), in an array sized to the registered signal count (section 6);
    the source hands the model one stream name per configured signal
    (line 47).  The array here has one slot per stream name: that is the
    registered signal count whenever every configured name is recognised,
    and it is never shorter than the registry.  The model has one visual
    input and one next-step visual input per camera of the brain. *)
Definition rewards_holders (m : SACModel) : list placeholder :=
  model_rewards_holder <$> seq 0 (length (stream_names m)).

Definition visual_in (m : SACModel) : list placeholder :=
  model_visual_in <$> seq 0 (visual_in_count m).

Definition next_visual_in (m : SACModel) : list placeholder :=
  model_next_visual_in <$> seq 0 (next_visual_in_count m).

Definition new_SACModel (brain : BrainParameters) (names : list string) : SACModel :=
  {| act_size := vector_action_space_size brain;
     vis_obs_size := Z.of_nat (number_visual_observations brain);
     visual_in_count := number_visual_observations brain;
     next_visual_in_count := number_visual_observations brain;
     stream_names := names |}.

(** The reward-input slot the model created for a stream name. *)
Definition model_slot (m : SACModel) (name : string) : option placeholder :=
  i ← index_of name (stream_names m); rewards_holders m !! i.

(** The attributes left on [self] by the base-class constructor. *)
Record Policy := {
  brain : BrainParameters;
  m_size : nat;
  use_recurrent : bool;
  use_continuous_act : bool;
  use_vec_obs : bool;
  vec_obs_size : Z;
  sequence_length : Z;
}.

Record SACPolicy := {
  base : Policy;
  model : SACModel;
  reward_signals : odict RewardSignal;
  inference_dict : odict fetch;
  update_dict : odict fetch;
}.

Definition registry_add (name : string) (mk : float -> RewardSignal)
    (reward_strengths : odict float) (signals : odict RewardSignal)
  : odict RewardSignal :=
  match dict_get reward_strengths name with
  | Some strength => dict_set signals name (mk strength)
  | None => signals
  end.

(** Lines 31-78: the strength mapping, the stream names handed to the
    model, and the registry filled by the four membership tests. *)
Definition reward_strengths_of (trainer_params : TrainerParams) : odict float :=
  dict_of_zip (cfg_reward_signals trainer_params) (cfg_reward_strength trainer_params).

Definition registry_of (trainer_params : TrainerParams) : odict RewardSignal :=
  let reward_strengths := reward_strengths_of trainer_params in
  let signals := [] in
  let signals := registry_add "extrinsic" ExtrinsicSignal reward_strengths signals in
  let signals :=
    registry_add "curiosity"
      (fun s => CuriositySignal s (cfg_curiosity_enc_size trainer_params))
      reward_strengths signals in
  let signals :=
    registry_add "gail"
      (GAILSignal (cfg_hidden_units trainer_params) (cfg_learning_rate trainer_params)
                  (cfg_demo_path trainer_params))
      reward_strengths signals in
  registry_add "entropy" EntropySignal reward_strengths signals.

(** Lines 98-115 *)
Definition inference_dict_of (self : Policy) (trainer_params : TrainerParams)
    (is_training load : bool) : odict fetch :=
  let d := [("action", model_output);
            ("log_probs", model_all_log_probs);
            ("value", model_value);
            ("entropy", model_entropy);
            ("learning_rate", model_learning_rate)]%string in
  let d := if use_recurrent self then dict_set d "memory_out" model_memory_out else d in
  if is_training && use_vec_obs self && cfg_normalize trainer_params && negb load
  then dict_set d "update_mean" model_update_normalization
  else d.

(** Lines 117-127 *)
Definition update_dict_of : odict fetch :=
  [("value_loss", model_total_value_loss);
   ("policy_loss", model_policy_loss);
   ("q1_loss", model_q1_loss);
   ("q2_loss", model_q2_loss);
   ("entropy_coef", model_ent_coef);
   ("entropy", model_entropy);
   ("update_batch", model_update_batch_policy);
   ("update_value", model_update_batch_value);
   ("update_entropy", model_update_batch_entropy)]%string.

(** The object built by [SACPolicy.__init__]; [self] is the object as the
    base-class constructor left it. *)
Definition new_SACPolicy (self : Policy) (brain : BrainParameters)
    (trainer_params : TrainerParams) (is_training load : bool) : SACPolicy :=
  {| base := self;
     model := new_SACModel brain (dict_keys (reward_strengths_of trainer_params));
     reward_signals := registry_of trainer_params;
     inference_dict := inference_dict_of self trainer_params is_training load;
     update_dict := update_dict_of |}.

Definition SACPolicy_init `{Engine} (self : Policy) (brain : BrainParameters)
    (trainer_params : TrainerParams) (is_training load : bool) : M session SACPolicy :=
  (if load then _load_graph
   else (_initialize_graph ;;; (_ <- sess_run1 model_target_init_op ∅ ;; ret tt))) ;;;
  ret (new_SACPolicy self brain trainer_params is_training load).

(** ** Inference *)

(** The caller's batch object and the session, both shared with the caller. *)
Record world `{Engine} := World {
  brain_info : BrainInfo;
  sess : session;
}.

Record ActionInfo := {
  action : pyval;
  memory : pyval;
  text : pyval;
  value : pyval;
  outputs : option (odict pyval);
}.

(** [run_out.get(key)] *)
Definition run_out_get (run_out : odict pyval) (key : string) : pyval :=
  match dict_get run_out key with
  | Some v => v
  | None => PyNone
  end.

(** Modelled from the spec: [Policy.make_empty_memory] belongs to the base
    class; it returns a zero-initialised array sized
    (agent count, memory size). *)
Definition make_empty_memory (pol : SACPolicy) (num_agents : nat) : ndarray :=
  np_zeros [num_agents; m_size (base pol)].

(** Modelled from the spec: [Policy.fill_eval_dict] belongs to the base
    class; it adds the vector and visual observation bindings of the
    batch. *)
Definition fill_eval_dict (pol : SACPolicy) (fd : feed_dict) (bi : BrainInfo) : feed_dict :=
  let fd := fold_left (fun fd io => <[model_visual_in (fst io) := FArr (snd io)]> fd)
                      (imap pair (visual_observations bi)) fd in
  if use_vec_obs (base pol)
  then <[model_vector_in := FArr (vector_observations bi)]> fd
  else fd.

Section Operations.
Context `{Engine}.

Definition get_brain_info : M world BrainInfo :=
  fun w => (Ok (brain_info w), w).

(** [brain_info.memories = m]: an assignment to the caller's object. *)
Definition set_memories (m : ndarray) : M world unit :=
  fun w => (Ok tt, World _ (set_memories_field m (brain_info w)) (sess w)).

Definition with_sess {A} (c : M session A) : M world A :=
  fun w => let '(r, s') := c (sess w) in (r, World _ (brain_info w) s').

(** Lines 147-149 and 244-245: the lazy seed of an empty memory. *)
Definition seed_empty_memory (pol : SACPolicy) : M world unit :=
  bi <- get_brain_info ;;
  width <- lift (shape_at (memories bi) 1) ;;
  if (width =? 0)%nat
  then set_memories (make_empty_memory pol (length (agents bi)))
  else ret tt.

(** Lines 135-155: the feed dictionary of [evaluate]. *)
Definition evaluate_feed_dict (pol : SACPolicy) : M world feed_dict :=
  bi <- get_brain_info ;;
  n <- lift (np_len (vector_observations bi)) ;;
  let fd : feed_dict :=
    <[model_sequence_length := FInt 1]> (<[model_batch_size := FInt (Z.of_nat n)]> ∅) in
  fd <- (if use_recurrent (base pol) then
           fd <- (if negb (use_continuous_act (base pol)) then
                    prev <- lift (reshape (previous_vector_actions bi)
                                    [-1; Z.of_nat (length (act_size (model pol)))]) ;;
                    ret (<[model_prev_action := FArr prev]> fd)
                  else ret fd) ;;
           seed_empty_memory pol ;;;
           bi <- get_brain_info ;;
           ret (<[model_memory_in := FArr (memories bi)]> fd)
         else ret fd) ;;
  bi <- get_brain_info ;;
  ret (fill_eval_dict pol fd bi).

Definition evaluate (pol : SACPolicy) : M world (odict pyval) :=
  fd <- evaluate_feed_dict pol ;;
  with_sess (_execute_model fd (inference_dict pol)).

(** Lines 237-240 *)
Fixpoint gve_visual (pol : SACPolicy) (idx : Z) (i : nat) (obs : list ndarray)
    (fd : feed_dict) : result feed_dict :=
  match obs with
  | [] => Ok fd
  | o :: obs' =>
      row <~ np_getitem o idx ;;
      holder <~ list_getitem (visual_in (model pol)) i ;;
      gve_visual pol idx (S i) obs' (<[holder := FList [row]]> fd)
  end.

(** Lines 236-250: the feed dictionary of [get_value_estimates]. *)
Definition gve_feed_dict (pol : SACPolicy) (idx : Z) : M world feed_dict :=
  bi <- get_brain_info ;;
  let fd : feed_dict :=
    <[model_sequence_length := FInt 1]> (<[model_batch_size := FInt 1]> ∅) in
  fd <- lift (gve_visual pol idx 0 (visual_observations bi) fd) ;;
  fd <- (if use_vec_obs (base pol) then
           row <- lift (np_getitem (vector_observations bi) idx) ;;
           ret (<[model_vector_in := FList [row]]> fd)
         else ret fd) ;;
  fd <- (if use_recurrent (base pol) then
           seed_empty_memory pol ;;;
           bi <- get_brain_info ;;
           row <- lift (np_getitem (memories bi) idx) ;;
           ret (<[model_memory_in := FList [row]]> fd)
         else ret fd) ;;
  if negb (use_continuous_act (base pol)) && use_recurrent (base pol) then
    bi <- get_brain_info ;;
    row <- lift (np_getitem (previous_vector_actions bi) idx) ;;
    prev <- lift (reshape row [-1; Z.of_nat (length (act_size (model pol)))]) ;;
    ret (<[model_prev_action := FArr prev]> fd)
  else ret fd.

Definition get_value_estimates (pol : SACPolicy) (idx : Z) : M world pyval :=
  fd <- gve_feed_dict pol idx ;;
  with_sess (sess_run1 model_value fd).

(** Lines 261-272 *)
Definition get_action (pol : SACPolicy) : M world ActionInfo :=
  bi <- get_brain_info ;;
  if (length (agents bi) =? 0)%nat then
    ret {| action := PyEmptyList; memory := PyEmptyList; text := PyEmptyList;
           value := PyNone; outputs := None |}
  else
    run_out <- evaluate pol ;;
    ret {| action := run_out_get run_out "action";
           memory := run_out_get run_out "memory_out";
           text := PyNone;
           value := run_out_get run_out "value";
           outputs := Some run_out |}.

(** ** Update *)

(** [mini_batch[key]] *)
Definition mb_get (mini_batch : gmap string ndarray) (key : string) : result ndarray :=
  match mini_batch !! key with
  | Some a => Ok a
  | None => Raise (KeyError key)
  end.

Definition rewards_key (name : string) : string := name +:+ "_rewards".

(** Lines 171-174: [for i, name in enumerate(self.reward_signals.keys())] *)
Fixpoint bind_rewards (pol : SACPolicy) (mini_batch : gmap string ndarray)
    (i : nat) (names : list string) (fd : feed_dict) : result feed_dict :=
  match names with
  | [] => Ok fd
  | name :: names' =>
      col <~ mb_get mini_batch (rewards_key name) ;;
      holder <~ list_getitem (rewards_holders (model pol)) i ;;
      bind_rewards pol mini_batch (S i) names' (<[holder := FArr (flatten col)]> fd)
  end.

(** [(_batch, _seq, _w, _h, _c) = _obs.shape] *)
Definition unpack5 (sh : list nat) : result (nat * nat * nat * nat * nat) :=
  match sh with
  | [b; s; w; h; c] => Ok (b, s, w, h, c)
  | _ => Raise ValueError
  end.

(** Lines 200-205 and 208-215: the binding of one visual stream. *)
Definition visual_binding (pol : SACPolicy) (_obs : ndarray) : result ndarray :=
  if (1 <? sequence_length (base pol)) && use_recurrent (base pol) then
    dims <~ unpack5 (shape _obs) ;;
    let '(_, _, _w, _h, _c) := dims in
    reshape _obs [-1; Z.of_nat _w; Z.of_nat _h; Z.of_nat _c]
  else Ok _obs.

(** Lines 199-215: one loop over the holders of a list of visual inputs,
    reading the columns [column 0], [column 1], ... *)
Fixpoint bind_visual (pol : SACPolicy) (mini_batch : gmap string ndarray)
    (column : nat -> string) (i : nat) (holders : list placeholder)
    (fd : feed_dict) : result feed_dict :=
  match holders with
  | [] => Ok fd
  | holder :: holders' =>
      _obs <~ mb_get mini_batch (column i) ;;
      bound <~ visual_binding pol _obs ;;
      bind_visual pol mini_batch column (S i) holders' (<[holder := FArr bound]> fd)
  end.

Definition visual_obs_key (i : nat) : string := "visual_obs" +:+ pretty i.
Definition next_visual_obs_key (i : nat) : string := "next_visual_obs" +:+ pretty i.

Definition sum_Z (l : list Z) : Z := fold_right Z.add 0 l.

(** Lines 166-219: the feed dictionary of [update]. *)
Definition update_feed_dict (pol : SACPolicy) (mini_batch : gmap string ndarray)
    (num_sequences : Z) : result feed_dict :=
  let branches := Z.of_nat (length (act_size (model pol))) in
  masks <~ mb_get mini_batch "masks" ;;
  let fd : feed_dict :=
    <[model_mask_input := FArr (flatten masks)]>
      (<[model_sequence_length := FInt (sequence_length (base pol))]>
         (<[model_batch_size := FInt num_sequences]> ∅)) in
  fd <~ bind_rewards pol mini_batch 0 (dict_keys (reward_signals pol)) fd ;;
  fd <~ (if use_continuous_act (base pol) then
           actions <~ mb_get mini_batch "actions" ;;
           dim <~ list_getitem (act_size (model pol)) 0 ;;
           a <~ reshape actions [-1; dim] ;;
           Ok (<[model_action_holder := FArr a]> fd)
         else
           actions <~ mb_get mini_batch "actions" ;;
           a <~ reshape actions [-1; branches] ;;
           let fd := <[model_action_holder := FArr a]> fd in
           fd <~ (if use_recurrent (base pol) then
                    prev <~ mb_get mini_batch "prev_action" ;;
                    p <~ reshape prev [-1; branches] ;;
                    Ok (<[model_prev_action := FArr p]> fd)
                  else Ok fd) ;;
           mask <~ mb_get mini_batch "action_mask" ;;
           m <~ reshape mask [-1; sum_Z (vector_action_space_size (brain (base pol)))] ;;
           Ok (<[model_action_masks := FArr m]> fd)) ;;
  fd <~ (if use_vec_obs (base pol) then
           obs <~ mb_get mini_batch "vector_obs" ;;
           v <~ reshape obs [-1; vec_obs_size (base pol)] ;;
           let fd := <[model_vector_in := FArr v]> fd in
           next_obs <~ mb_get mini_batch "next_vector_in" ;;
           nv <~ reshape next_obs [-1; vec_obs_size (base pol)] ;;
           Ok (<[model_next_vector_in := FArr nv]> fd)
         else Ok fd) ;;
  fd <~ (if 0 <? vis_obs_size (model pol) then
           fd <~ bind_visual pol mini_batch visual_obs_key 0
                   (visual_in (model pol)) fd ;;
           bind_visual pol mini_batch next_visual_obs_key 0
             (next_visual_in (model pol)) fd
         else Ok fd) ;;
  fd <~ (if use_recurrent (base pol) then
           mem <~ mb_get mini_batch "memory" ;;
           mem_in <~ first_timestep mem ;;
           Ok (<[model_memory_in := FArr mem_in]> fd)
         else Ok fd) ;;
  done_col <~ mb_get mini_batch "done" ;;
  Ok (<[model_dones_holder := FArr (flatten done_col)]> fd).

(** Lines 159-226; [update_target] is [None] when the caller leaves the
    keyword argument out, and then takes its default, [True]. *)
Definition update (pol : SACPolicy) (mini_batch : gmap string ndarray)
    (num_sequences : Z) (update_target : option bool) : M session (odict pyval) :=
  let update_target := default true update_target in
  fd <- lift (update_feed_dict pol mini_batch num_sequences) ;;
  run_out <- _execute_model fd (update_dict pol) ;;
  (if update_target
   then (_ <- sess_run1 model_target_update_op ∅ ;; ret tt)
   else ret tt) ;;;
  ret run_out.

(** ** Reward bookkeeping (lines 274-288) *)

Definition get_last_reward : M session pyval :=
  sess_run1 model_last_reward ∅.

Definition update_reward (new_reward : float) : M session unit :=
  _ <- sess_run1 model_update_reward {[model_new_reward := FFloat new_reward]} ;;
  ret tt.
End Operations.

(** ** A small concrete engine

    Parameters are a step counter, the optimiser adds one, the target
    synchronisation copies the online parameters, and the normalisation
    statistics count their updates.  It serves to run the policy on
    concrete inputs. *)

Definition counting_engine : Engine := {|
  params := Z;
  norm_stats := nat;
  forward := fun _ _ o _ _ => PyArr (NDArray [] []);
  train_step := fun _ _ o _ => o + 1;
  polyak := fun o _ => o;
  norm_step := fun _ n => S n;
  initial_params := 0;
  initial_norm := O;
  saved_params := (5, 5);
  saved_norm := 3%nat;
  saved_reward := 1%float;
|}.

Definition empty_decision : ActionInfo :=
  {| action := PyEmptyList; memory := PyEmptyList; text := PyEmptyList;
     value := PyNone; outputs := None |}.

Definition decision_of (run_out : odict pyval) : ActionInfo :=
  {| action := run_out_get run_out "action";
     memory := run_out_get run_out "memory_out";
     text := PyNone;
     value := run_out_get run_out "value";
     outputs := Some run_out |}.

(** The batch as [seed_empty_memory] leaves it. *)
Definition seeded (pol : SACPolicy) (bi : BrainInfo) : BrainInfo :=
  match shape_at (memories bi) 1 with
  | Ok O => set_memories_field (make_empty_memory pol (length (agents bi))) bi
  | _ => bi
  end.


(** The shape under which the model sees a bound value: a Python list of
    arrays is converted to an array with one more leading dimension. *)
Definition bound_shape (v : feed_value) : list nat :=
  match v with
  | FInt _ | FFloat _ => []
  | FArr a => shape a
  | FList l => length l :: match l with a :: _ => shape a | [] => [] end
  end.

(** The feed dictionary of the most recent session call. *)
Definition last_feed `{Engine} (s : session) : feed_dict :=
  match last (calls s) with
  | Some (EvRun _ fd) => fd
  | _ => ∅
  end.

(** The normalisation update is among the endpoints an output dictionary
    requests. *)
Definition update_mean_requested (out_dict : odict fetch) : Prop :=
  In model_update_normalization (dict_values out_dict).

(** Two worlds that differ at most in the memory field of the batch. *)
Definition same_but_memories `{Engine} (w w' : world) : Prop :=
  visual_observations (brain_info w') = visual_observations (brain_info w)
  ∧ vector_observations (brain_info w') = vector_observations (brain_info w)
  ∧ previous_vector_actions (brain_info w') = previous_vector_actions (brain_info w)
  ∧ agents (brain_info w') = agents (brain_info w)
  ∧ sess w' = sess w.

(** A computation that changes nothing of the world but the memory field
    of the batch, whatever its outcome. *)
Definition keeps_frame `{Engine} {A} (c : M world A) : Prop :=
  ∀ w, same_but_memories w (snd (c w)).

(** The feed dictionaries that [evaluate] and [get_value_estimates] hand to
    the session. *)
Definition eval_feed `{Engine} (pol : SACPolicy) (w : world) : feed_dict :=
  last_feed (sess (snd (evaluate pol w))).

Definition gve_feed `{Engine} (pol : SACPolicy) (idx : Z) (w : world) : feed_dict :=
  last_feed (sess (snd (get_value_estimates pol idx w))).

(** The memory-in of a feed dictionary has the shape
    (agent count, memory size). *)
Definition memory_in_batch_shaped (pol : SACPolicy) (bi : BrainInfo) (fd : feed_dict) : Prop :=
  ∃ v, fd !! model_memory_in = Some v
       ∧ bound_shape v = [length (agents bi); m_size (base pol)].

(** ** Concrete inputs *)

Module Sample.
Definition zeros (sh : list Z) : ndarray := np_zeros (map Z.to_nat sh).

Definition brain_params : BrainParameters :=
  {| vector_action_space_size := [2]; number_visual_observations := 1 |}.

(** Two recognised signals, configured in the order curiosity, extrinsic. *)
Definition config : TrainerParams :=
  {| cfg_reward_signals := ["curiosity"; "extrinsic"]%string;
     cfg_reward_strength := [0.5%float; 1%float];
     cfg_normalize := true;
     cfg_learning_rate := 1%float;
     cfg_hidden_units := 4;
     cfg_curiosity_enc_size := 8%float;
     cfg_demo_path := "" |}.

(** A recurrent policy with continuous actions, vector and visual
    observations, memory size 3 and sequence length 2. *)
Definition self : Policy :=
  {| brain := brain_params; m_size := 3; use_recurrent := true;
     use_continuous_act := true; use_vec_obs := true; vec_obs_size := 2;
     sequence_length := 2 |}.

Definition visual_only_self : Policy :=
  {| brain := brain_params; m_size := 3; use_recurrent := true;
     use_continuous_act := true; use_vec_obs := false; vec_obs_size := 0;
     sequence_length := 2 |}.

Definition pol : SACPolicy := new_SACPolicy self brain_params config true false.

(** Two agents, one camera of 1x1x1 images, an empty memory placeholder. *)
Definition batch : BrainInfo :=
  {| visual_observations := [zeros [2; 1; 1; 1]];
     vector_observations := zeros [2; 2];
     memories := zeros [2; 0];
     previous_vector_actions := zeros [2; 1];
     agents := [0; 1] |}.

Definition start : @world counting_engine :=
  @World counting_engine batch (@Session counting_engine (@Graph counting_engine 0 0 O 0%float) []).

(** Two sequences of two steps each. *)
Definition mini_batch : gmap string ndarray :=
  list_to_map
    [("masks", zeros [2; 2]);
     ("extrinsic_rewards", NDArray [4%nat] [1%float; 1%float; 1%float; 1%float]);
     ("curiosity_rewards", NDArray [4%nat] [2%float; 2%float; 2%float; 2%float]);
     ("actions", zeros [2; 2; 2]);
     ("vector_obs", zeros [2; 2; 2]);
     ("next_vector_in", zeros [2; 2; 2]);
     ("visual_obs0", zeros [2; 2; 1; 1; 1]);
     ("next_visual_obs0", zeros [2; 2; 1; 1; 1]);
     ("memory", zeros [2; 2; 3]);
     ("done", zeros [2; 2])]%string.

(** A configuration that names a signal the constructor does not know. *)
Definition config_unrecognised : TrainerParams :=
{| cfg_reward_signals := ["custom"; "extrinsic"]%string;
   cfg_reward_strength := [0.5%float; 1%float];
   cfg_normalize := true;
   cfg_learning_rate := 1%float;
   cfg_hidden_units := 4;
   cfg_curiosity_enc_size := 8%float;
   cfg_demo_path := "" |}.

Definition pol_unrecognised : SACPolicy :=
new_SACPolicy self brain_params config_unrecognised true false.

(** The feed dictionary [update] builds from [mini_batch]. *)
Definition update_feed : feed_dict :=
  match update_feed_dict pol mini_batch 2 with
  | Ok fd => fd
  | Raise _ => ∅
  end.
End Sample.

(** ** Slot-by-slot descriptions used in the properties *)

Definition result_to_option {A} (r : result A) : option A :=
  match r with Ok a => Some a | Raise _ => None end.

(** A minibatch column, flattened. *)
Definition column_flat (mini_batch : gmap string ndarray) (key : string)
  : option feed_value :=
  a ← mini_batch !! key; Some (FArr (flatten a)).

(** A minibatch column, reshaped. *)
Definition column_reshaped (mini_batch : gmap string ndarray) (key : string)
    (dims : list Z) : option feed_value :=
  a ← mini_batch !! key; FArr <$> result_to_option (reshape a dims).

(** What [update] binds to each input of the model, read slot by slot off
    lines 166-219. *)
Definition update_binding `{Engine} (pol : SACPolicy) (mini_batch : gmap string ndarray)
    (num_sequences : Z) (p : placeholder) : option feed_value :=
  let branches := Z.of_nat (length (act_size (model pol))) in
  let discrete := negb (use_continuous_act (base pol)) in
  match p with
  | model_batch_size => Some (FInt num_sequences)
  | model_sequence_length => Some (FInt (sequence_length (base pol)))
  | model_mask_input => column_flat mini_batch "masks"
  | model_rewards_holder j =>
      name ← dict_keys (reward_signals pol) !! j;
      column_flat mini_batch (rewards_key name)
  | model_action_holder =>
      if use_continuous_act (base pol)
      then dim ← act_size (model pol) !! 0%nat;
           column_reshaped mini_batch "actions" [-1; dim]
      else column_reshaped mini_batch "actions" [-1; branches]
  | model_prev_action =>
      if discrete && use_recurrent (base pol)
      then column_reshaped mini_batch "prev_action" [-1; branches]
      else None
  | model_action_masks =>
      if discrete
      then column_reshaped mini_batch "action_mask"
             [-1; sum_Z (vector_action_space_size (brain (base pol)))]
      else None
  | model_vector_in =>
      if use_vec_obs (base pol)
      then column_reshaped mini_batch "vector_obs" [-1; vec_obs_size (base pol)]
      else None
  | model_next_vector_in =>
      if use_vec_obs (base pol)
      then column_reshaped mini_batch "next_vector_in" [-1; vec_obs_size (base pol)]
      else None
  | model_visual_in i =>
      if (0 <? vis_obs_size (model pol)) && (i <? visual_in_count (model pol))%nat
      then _obs ← mini_batch !! visual_obs_key i;
           FArr <$> result_to_option (visual_binding pol _obs)
      else None
  | model_next_visual_in i =>
      if (0 <? vis_obs_size (model pol)) && (i <? next_visual_in_count (model pol))%nat
      then _obs ← mini_batch !! next_visual_obs_key i;
           FArr <$> result_to_option (visual_binding pol _obs)
      else None
  | model_memory_in =>
      if use_recurrent (base pol)
      then mem ← mini_batch !! "memory"%string;
           FArr <$> result_to_option (first_timestep mem)
      else None
  | model_dones_holder => column_flat mini_batch "done"
  | model_new_reward => None
  end.

(** The minibatch columns that [update] reads, in the order it reads them
    (lines 166-219). *)
Definition required_columns (pol : SACPolicy) : list string :=
  ["masks"%string]
  ++ (rewards_key <$> dict_keys (reward_signals pol))
  ++ ["actions"%string]
  ++ (if use_continuous_act (base pol) then []
      else (if use_recurrent (base pol) then ["prev_action"%string] else [])
           ++ ["action_mask"%string])
  ++ (if use_vec_obs (base pol) then ["vector_obs"; "next_vector_in"]%string else [])
  ++ (if 0 <? vis_obs_size (model pol)
      then (visual_obs_key <$> seq 0 (visual_in_count (model pol)))
           ++ (next_visual_obs_key <$> seq 0 (next_visual_in_count (model pol)))
      else [])
  ++ (if use_recurrent (base pol) then ["memory"%string] else [])
  ++ ["done"%string].

(** An array holds as many elements as its shape says. *)
Definition wf_ndarray (a : ndarray) : Prop :=
  length (data a) = size_of (shape a).

(** The signal names the constructor recognises, in the order it tests
    them (lines 54-78). *)
Definition recognised_signals : list string :=
  ["extrinsic"; "curiosity"; "gail"; "entropy"]%string.

(** The configured names that [zip] pairs with a strength: a name beyond the
    end of the strength list is dropped. *)
Definition configured_signals (trainer_params : TrainerParams) : list string :=
  take (length (cfg_reward_strength trainer_params)) (cfg_reward_signals trainer_params).

(** The strength paired with the last occurrence of a name. *)
Definition configured_strength (trainer_params : TrainerParams) (name : string)
  : option float :=
  snd <$> last (filter (λ kv, fst kv = name)
                  (combine (cfg_reward_signals trainer_params)
                           (cfg_reward_strength trainer_params))).

(** The batch as [evaluate] leaves it, whatever its outcome: the memory is
    seeded once the steps before the seed have gone through. *)
Definition batch_after_evaluate (pol : SACPolicy) (bi : BrainInfo) : BrainInfo :=
  if use_recurrent (base pol)
     && is_ok (np_len (vector_observations bi))
     && (use_continuous_act (base pol)
         || is_ok (reshape (previous_vector_actions bi)
                     [-1; Z.of_nat (length (act_size (model pol)))]))
  then seeded pol bi
  else bi.

(** ** A recurrent policy with discrete actions *)

Module DiscreteSample.
Definition brain_params : BrainParameters :=
  {| vector_action_space_size := [3; 2]; number_visual_observations := 0 |}.

(** Two action branches, memory size 2, no camera. *)
Definition self : Policy :=
  {| brain := brain_params; m_size := 2; use_recurrent := true;
     use_continuous_act := false; use_vec_obs := true; vec_obs_size := 2;
     sequence_length := 1 |}.

Definition pol : SACPolicy := new_SACPolicy self brain_params Sample.config true false.

(** Two agents that carry a memory already. *)
Definition batch : BrainInfo :=
  {| visual_observations := [];
     vector_observations := Sample.zeros [2; 2];
     memories := Sample.zeros [2; 2];
     previous_vector_actions := NDArray [2; 2]%nat [1%float; 0%float; 2%float; 1%float];
     agents := [0; 1] |}.

Definition start : @world counting_engine :=
  @World counting_engine batch
    (@Session counting_engine (@Graph counting_engine 0 0 O 0%float) []).
End DiscreteSample.

(** ** A policy without vector observations *)

Module VisualOnlySample.
Definition pol : SACPolicy :=
  new_SACPolicy Sample.visual_only_self Sample.brain_params Sample.config true false.

(** Two agents seen through one camera; no vector observation is carried,
    so the vector-observation array is empty. *)
Definition batch : BrainInfo :=
  {| visual_observations := [Sample.zeros [2; 1; 1; 1]];
     vector_observations := Sample.zeros [0];
     memories := Sample.zeros [2; 0];
     previous_vector_actions := Sample.zeros [2; 1];
     agents := [0; 1] |}.

Definition start : @world counting_engine :=
  @World counting_engine batch
    (@Session counting_engine (@Graph counting_engine 0 0 O 0%float) []).
End VisualOnlySample.

(** The endpoints an inference call may request: tensor reads and the
    normalisation update. *)
Definition inference_endpoints : list fetch :=
  [model_output; model_all_log_probs; model_value; model_entropy;
   model_learning_rate; model_memory_out; model_update_normalization].

(** Every array of the batch has one leading entry per agent. *)
Definition batch_rows (n : nat) (bi : BrainInfo) : Prop :=
  Forall (λ o, ∃ rest, shape o = n :: rest) (visual_observations bi)
  ∧ (∃ rest, shape (vector_observations bi) = n :: rest)
  ∧ (∃ rest, shape (memories bi) = n :: rest)
  ∧ (∃ rest, shape (previous_vector_actions bi) = n :: rest)
  ∧ length (agents bi) = n.

(** * Properties *)

(** ** Construction *)

(** The constructor returns the policy object [new_SACPolicy] describes;
    a fresh session initialises the graph and then the target network, a
    loaded one restores the checkpoint. *)
Lemma SACPolicy_init_returns `{Engine} (self : Policy) (brain : BrainParameters)
    (trainer_params : TrainerParams) (is_training load : bool) (s : session) :
  fst (SACPolicy_init self brain trainer_params is_training load s)
  = Ok (new_SACPolicy self brain trainer_params is_training load)
  ∧ calls (snd (SACPolicy_init self brain trainer_params is_training load s))
    = calls s ++ (if load then [EvLoadGraph]
                  else [EvInitGraph; EvRun [model_target_init_op] ∅]).
Proof.
  unfold SACPolicy_init, bind, ret. destruct load; simpl; [done|].
  by rewrite <- app_assoc.
Qed.

(** ** Reward bookkeeping *)

Lemma sess_run1_last_reward `{Engine} (fd : feed_dict) (s : session) :
  sess_run1 model_last_reward fd s
  = (Ok (PyFloat (last_reward (graph s))),
     Session (graph s) (calls s ++ [EvRun [model_last_reward] fd])).
Proof. unfold sess_run1, graph_run; simpl. by destruct s as [[]]. Qed.

(** C7: [update_reward x] followed by [get_last_reward] returns exactly [x]
    whatever the estimate was before, and [get_last_reward] is a pure read:
    read twice in a row it returns the same value, and it leaves the graph's
    variables as they were. *)
Theorem update_reward_replaces_last_reward `{Engine} (x : float) (s : session) :
  fst (get_last_reward (snd (update_reward x s))) = Ok (PyFloat x)
  ∧ fst (get_last_reward (snd (get_last_reward s))) = fst (get_last_reward s)
  ∧ graph (snd (get_last_reward s)) = graph s.
Proof.
  unfold get_last_reward. rewrite !sess_run1_last_reward. simpl.
  split; [|done].
  unfold update_reward, bind, sess_run1, graph_run, ret; simpl.
  by rewrite lookup_singleton_eq.
Qed.

(** ** get_action *)

(** C3: on a batch with no agent [get_action] returns the empty decision
    and leaves the world, hence the session and its list of calls, untouched:
    nothing is run.  With at least one agent the outcome is that of
    [evaluate], its outputs repackaged as action, memory-out, value and the
    whole output map. *)
Theorem get_action_short_circuit `{Engine} (pol : SACPolicy) (w : world) :
  match agents (brain_info w) with
  | [] => get_action pol w = (Ok empty_decision, w)
  | _ :: _ =>
      get_action pol w
      = match evaluate pol w with
        | (Ok run_out, w') => (Ok (decision_of run_out), w')
        | (Raise e, w') => (Raise e, w')
        end
  end.
Proof.
  unfold get_action, bind, get_brain_info.
  destruct (agents (brain_info w)) eqn:Hag; simpl; [done|].
  by destruct (evaluate pol w) as [[run_out|e] w'].
Qed.

(** ** Target synchronisation *)

(** C6: when the feed dictionary can be built, [update] runs the update
    endpoints first; with [update_target] true, or left to its default, it
    then runs the target synchronisation on the graph state that the main
    pass produced, so the target moves toward the just-written online
    parameters; with [update_target] false the session sees the main pass
    only.  When the feed dictionary cannot be built nothing is run. *)
Theorem update_target_sync_after_main_pass `{Engine} (pol : SACPolicy)
    (mini_batch : gmap string ndarray) (num_sequences : Z) (s : session) :
  match update_feed_dict pol mini_batch num_sequences with
  | Raise e => ∀ ut, update pol mini_batch num_sequences ut s = (Raise e, s)
  | Ok fd =>
      let fetches := dict_values (update_dict pol) in
      let main := graph_run fetches fd (graph s) in
      let run_out := dict_of_zip (dict_keys (update_dict pol)) (fst main) in
      let synced := snd (graph_run [model_target_update_op] ∅ (snd main)) in
      (∀ ut, ut = None ∨ ut = Some true →
         update pol mini_batch num_sequences ut s
         = (Ok run_out,
            Session synced
              (calls s ++ [EvRun fetches fd; EvRun [model_target_update_op] ∅])))
      ∧ online synced = online (snd main)
      ∧ target synced = polyak (online (snd main)) (target (snd main))
      ∧ update pol mini_batch num_sequences (Some false) s
        = (Ok run_out, Session (snd main) (calls s ++ [EvRun fetches fd]))
  end.
Proof.
  unfold update, bind, lift, _execute_model, sess_run, sess_run1, bind, ret.
  destruct (update_feed_dict pol mini_batch num_sequences) as [fd|e]; [|done].
  cbv zeta.
  destruct (graph_run (dict_values (update_dict pol)) fd (graph s)) as [out g1] eqn:Hmain.
  simpl. split; [|done].
  intros ut [->| ->]; simpl; by rewrite <- app_assoc.
Qed.

Lemma update_target_sync_after_main_pass_witness :
  target (graph (snd (update Sample.pol Sample.mini_batch 2 None (sess Sample.start)))) = 3
  ∧ target (graph (snd (update Sample.pol Sample.mini_batch 2 (Some false)
                          (sess Sample.start)))) = 0.
Proof.
  pose proof (@update_target_sync_after_main_pass counting_engine Sample.pol
                Sample.mini_batch 2 (sess Sample.start)) as Hupdate.
  assert (update_feed_dict Sample.pol Sample.mini_batch 2 = Ok Sample.update_feed)
    as Hfeed by (vm_compute; reflexivity).
  rewrite Hfeed in Hupdate. cbv zeta in Hupdate.
  destruct Hupdate as (Hsync & _ & _ & Hmain).
  rewrite (Hsync None (or_introl eq_refl)), Hmain.
  split; reflexivity.
Defined.

(** ** Inversion of monadic computations *)

Lemma bind_inv {S A B} (c : M S A) (k : A -> M S B) (s s' : S) (b : B) :
  bind c k s = (Ok b, s') → ∃ a s1, c s = (Ok a, s1) ∧ k a s1 = (Ok b, s').
Proof.
  unfold bind. destruct (c s) as [[a|e] s1]; [|done]. by exists a, s1.
Qed.

Lemma rbind_inv {A B} (r : result A) (k : A -> result B) (b : B) :
  rbind r k = Ok b → ∃ a, r = Ok a ∧ k a = Ok b.
Proof. destruct r as [a|e]; simpl; [|done]. by exists a. Qed.

Ltac minv :=
  repeat match goal with
    | H : bind _ _ _ = (Ok _, _) |- _ =>
        let a := fresh "a" in let s := fresh "s" in let Ha := fresh "Hstep" in
        apply bind_inv in H as (a & s & Ha & H)
    | H : lift _ _ = (Ok _, _) |- _ => unfold lift in H; simplify_eq
    | H : ret _ _ = (Ok _, _) |- _ => unfold ret in H; simplify_eq
    | H : get_brain_info _ = (Ok _, _) |- _ => unfold get_brain_info in H; simplify_eq
    end.

Ltac rinv :=
  repeat match goal with
    | H : rbind _ _ = Ok _ |- _ =>
        let a := fresh "a" in let Ha := fresh "Hstep" in
        apply rbind_inv in H as (a & Ha & H)
    end.

(** ** The feed dictionary of evaluate *)

Lemma fold_visual_lookup_other (l : list (nat * ndarray)) (fd : feed_dict) (p : placeholder) :
  (∀ i, p ≠ model_visual_in i) →
  fold_left (fun fd io => <[model_visual_in (fst io) := FArr (snd io)]> fd) l fd !! p
  = fd !! p.
Proof.
  intros Hp. revert fd.
  induction l as [|[i o] l IH]; intros fd; simpl; [done|].
  rewrite IH. by apply lookup_insert_ne.
Qed.

Lemma fill_eval_dict_lookup_other (pol : SACPolicy) (fd : feed_dict) (bi : BrainInfo)
    (p : placeholder) :
  (∀ i, p ≠ model_visual_in i) → p ≠ model_vector_in →
  fill_eval_dict pol fd bi !! p = fd !! p.
Proof.
  intros Hvis Hvec. unfold fill_eval_dict.
  destruct (use_vec_obs (base pol)).
  - rewrite lookup_insert_ne by done. by apply fold_visual_lookup_other.
  - by apply fold_visual_lookup_other.
Qed.

Lemma seed_empty_memory_spec `{Engine} (pol : SACPolicy) (w : world) :
  seed_empty_memory pol w
  = match shape_at (memories (brain_info w)) 1 with
    | Ok _ => (Ok tt, World _ (seeded pol (brain_info w)) (sess w))
    | Raise e => (Raise e, w)
    end.
Proof.
  unfold seed_empty_memory, seeded, bind, get_brain_info, lift, set_memories, ret.
  destruct (shape_at (memories (brain_info w)) 1) as [[|width]|e]; simpl; try done.
  by destruct w.
Qed.

(** What a successful construction of [evaluate]'s feed dictionary did. *)
Lemma evaluate_feed_dict_inv `{Engine} (pol : SACPolicy) (w w' : world) (fd : feed_dict) :
  evaluate_feed_dict pol w = (Ok fd, w') →
  ∃ n, np_len (vector_observations (brain_info w)) = Ok n
    ∧ fd !! model_batch_size = Some (FInt (Z.of_nat n))
    ∧ fd !! model_sequence_length = Some (FInt 1)
    ∧ sess w' = sess w
    ∧ if use_recurrent (base pol)
      then is_ok (shape_at (memories (brain_info w)) 1) = true
           ∧ brain_info w' = seeded pol (brain_info w)
           ∧ fd !! model_memory_in = Some (FArr (memories (brain_info w')))
      else w' = w.
Proof.
  intros Heq.
  unfold evaluate_feed_dict, bind, get_brain_info, lift, ret in Heq.
  destruct (np_len (vector_observations (brain_info w))) as [n|e]; [|done].
  exists n. split; [done|].
  destruct (use_recurrent (base pol)).
  - assert (∃ fd0, fd0 !! model_batch_size = Some (FInt (Z.of_nat n))
                   ∧ fd0 !! model_sequence_length = Some (FInt 1)
                   ∧ (let (r, s') := seed_empty_memory pol w in
                      match r with
                      | Ok _ => (Ok (fill_eval_dict pol
                                       (<[model_memory_in := FArr (memories (brain_info s'))]> fd0)
                                       (brain_info s')), s')
                      | Raise e => (Raise e, s')
                      end) = (Ok fd, w')) as (fd0 & Hbs & Hseq & Hrun).
    { destruct (negb (use_continuous_act (base pol))).
      - destruct (reshape _ _) as [prev|e]; [|done].
        eexists. split_and!; [| |destruct (seed_empty_memory pol w) as [[]]; exact Heq].
        + by rewrite lookup_insert_ne, lookup_insert_ne, lookup_insert_eq.
        + by rewrite lookup_insert_ne, lookup_insert_eq.
      - eexists. split_and!; [| |destruct (seed_empty_memory pol w) as [[]]; exact Heq].
        + by rewrite lookup_insert_ne, lookup_insert_eq.
        + by rewrite lookup_insert_eq. }
    clear Heq. rewrite seed_empty_memory_spec in Hrun.
    destruct (shape_at (memories (brain_info w)) 1) as [width|e]; [|done].
    injection Hrun as <- <-. simpl.
    rewrite !fill_eval_dict_lookup_other by done.
    by rewrite lookup_insert_eq, !lookup_insert_ne by done.
  - injection Heq as <- <-.
    rewrite !fill_eval_dict_lookup_other by done.
    by rewrite lookup_insert_eq, !lookup_insert_ne, lookup_insert_eq by done.
Qed.

(** [evaluate] hands the dictionary it built to one session call. *)
Lemma evaluate_runs_feed_dict `{Engine} (pol : SACPolicy) (w : world) :
  evaluate pol w
  = match evaluate_feed_dict pol w with
    | (Ok fd, w') =>
        let fetches := dict_values (inference_dict pol) in
        let run := graph_run fetches fd (graph (sess w')) in
        (Ok (dict_of_zip (dict_keys (inference_dict pol)) (fst run)),
         World _ (brain_info w')
           (Session (snd run) (calls (sess w') ++ [EvRun fetches fd])))
    | (Raise e, w') => (Raise e, w')
    end.
Proof.
  unfold evaluate, bind.
  destruct (evaluate_feed_dict pol w) as [[fd|e] w']; [|done].
  unfold with_sess, _execute_model, bind, sess_run, ret. cbv zeta.
  by destruct (graph_run _ fd (graph (sess w'))).
Qed.

(** ** The feed dictionary of get_value_estimates *)

Lemma visual_in_getitem (m : SACModel) (i : nat) (holder : placeholder) :
  list_getitem (visual_in m) i = Ok holder → holder = model_visual_in i.
Proof.
  unfold list_getitem, visual_in. rewrite list_lookup_fmap.
  destruct (seq 0 (visual_in_count m) !! i) as [k|] eqn:Hk; simpl; [|done].
  apply lookup_seq in Hk as [-> _]. by intros [= <-].
Qed.

Lemma gve_visual_inv `{Engine} (pol : SACPolicy) (idx : Z) (obs : list ndarray) :
  ∀ (i0 : nat) (fd0 fd : feed_dict),
    gve_visual pol idx i0 obs fd0 = Ok fd →
    (∀ j o, obs !! j = Some o →
       ∃ row, np_getitem o idx = Ok row
              ∧ fd !! model_visual_in (i0 + j) = Some (FList [row]))
    ∧ (∀ p, (∀ i, (i0 ≤ i)%nat → p ≠ model_visual_in i) → fd !! p = fd0 !! p).
Proof.
  induction obs as [|o obs IH]; intros i0 fd0 fd; simpl.
  - intros [= <-]. split; [by intros j o' Hj|done].
  - destruct (np_getitem o idx) as [row|e] eqn:Hrow; simpl; [|done].
    destruct (list_getitem (visual_in (model pol)) i0) as [holder|e] eqn:Hh; simpl; [|done].
    apply visual_in_getitem in Hh as ->.
    intros Hrest. apply IH in Hrest as [Hbound Hother]. split.
    + intros [|j] o' Hj; simpl in Hj.
      * injection Hj as <-. exists row. split; [done|].
        rewrite Nat.add_0_r, Hother; [apply lookup_insert_eq|].
        intros i Hi [= ->]. lia.
      * destruct (Hbound j o' Hj) as (row' & ? & ?). exists row'.
        by rewrite <- Nat.add_succ_comm.
    + intros p Hp. rewrite Hother.
      * apply lookup_insert_ne. intros <-. by apply (Hp i0).
      * intros i Hi. apply Hp. lia.
Qed.

(** What a successful construction of [get_value_estimates]'s feed
    dictionary did. *)
Lemma gve_feed_dict_inv `{Engine} (pol : SACPolicy) (idx : Z) (w w' : world)
    (fd : feed_dict) :
  gve_feed_dict pol idx w = (Ok fd, w') →
  fd !! model_batch_size = Some (FInt 1)
  ∧ fd !! model_sequence_length = Some (FInt 1)
  ∧ (∀ j o, visual_observations (brain_info w) !! j = Some o →
       ∃ row, np_getitem o idx = Ok row
              ∧ fd !! model_visual_in j = Some (FList [row]))
  ∧ (if use_vec_obs (base pol)
     then ∃ row, np_getitem (vector_observations (brain_info w)) idx = Ok row
                 ∧ fd !! model_vector_in = Some (FList [row])
     else fd !! model_vector_in = None)
  ∧ sess w' = sess w
  ∧ if use_recurrent (base pol)
    then is_ok (shape_at (memories (brain_info w)) 1) = true
         ∧ brain_info w' = seeded pol (brain_info w)
         ∧ ∃ row, np_getitem (memories (brain_info w')) idx = Ok row
                  ∧ fd !! model_memory_in = Some (FList [row])
    else w' = w ∧ fd !! model_memory_in = None.
Proof.
  intros Heq. unfold gve_feed_dict in Heq.
  apply bind_inv in Heq as (bi & w0 & Hbi & Heq).
  unfold get_brain_info in Hbi. injection Hbi as <- <-.
  apply bind_inv in Heq as (fd1 & w1 & Hvis & Heq).
  unfold lift in Hvis. injection Hvis as Hvis <-.
  apply bind_inv in Heq as (fd2 & w2 & Hvec & Heq).
  apply bind_inv in Heq as (fd3 & w3 & Hmem & Heq).
  apply gve_visual_inv in Hvis as [Hvis Hother1].
  (* the vector observation *)
  assert (w2 = w ∧ (∀ p, p ≠ model_vector_in → fd2 !! p = fd1 !! p)
          ∧ (if use_vec_obs (base pol)
             then ∃ row, np_getitem (vector_observations (brain_info w)) idx = Ok row
                         ∧ fd2 !! model_vector_in = Some (FList [row])
             else fd2 !! model_vector_in = None)) as (-> & Hother2 & Hvec').
  { destruct (use_vec_obs (base pol)); minv.
    - split_and!; [done| |eexists; split; [done|apply lookup_insert_eq]].
      intros p Hp. by apply lookup_insert_ne.
    - split_and!; [done|done|].
      rewrite Hother1 by done. by rewrite !lookup_insert_ne. }
  clear Hvec.
  (* the memory *)
  assert ((∀ p, p ≠ model_memory_in → fd3 !! p = fd2 !! p)
          ∧ sess w3 = sess w
          ∧ (if use_recurrent (base pol)
             then is_ok (shape_at (memories (brain_info w)) 1) = true
                  ∧ brain_info w3 = seeded pol (brain_info w)
                  ∧ ∃ row, np_getitem (memories (brain_info w3)) idx = Ok row
                           ∧ fd3 !! model_memory_in = Some (FList [row])
             else w3 = w ∧ fd3 !! model_memory_in = None))
    as (Hother3 & Hsess & Hmem').
  { destruct (use_recurrent (base pol)); minv.
    - rewrite seed_empty_memory_spec in Hstep.
      destruct (shape_at (memories (brain_info w)) 1) as [width|e]; [|done].
      simplify_eq. simpl.
      split_and!; [|done|done|done|eexists; split; [done|apply lookup_insert_eq]].
      intros p Hp. by apply lookup_insert_ne.
    - split_and!; [done|done|done|].
      rewrite Hother2, Hother1 by done. by rewrite !lookup_insert_ne. }
  clear Hmem.
  (* the previous action *)
  assert (w' = w3 ∧ ∀ p, p ≠ model_prev_action → fd !! p = fd3 !! p) as [-> Hother4].
  { destruct (negb (use_continuous_act (base pol)) && use_recurrent (base pol)); minv.
    - split; [done|]. intros p Hp. by apply lookup_insert_ne.
    - done. }
  clear Heq.
  split_and!.
  - rewrite Hother4, Hother3, Hother2, Hother1 by done.
    by rewrite lookup_insert_ne, lookup_insert_eq.
  - rewrite Hother4, Hother3, Hother2, Hother1 by done. apply lookup_insert_eq.
  - intros j o Hj. destruct (Hvis j o Hj) as (row & Hrow & Hfd). exists row.
    split; [done|]. by rewrite Hother4, Hother3, Hother2.
  - destruct (use_vec_obs (base pol)).
    + destruct Hvec' as (row & ? & ?). exists row. by rewrite Hother4, Hother3.
    + by rewrite Hother4, Hother3.
  - done.
  - destruct (use_recurrent (base pol)).
    + destruct Hmem' as (? & ? & row & ? & ?). split_and!; [done|done|].
      exists row. by rewrite Hother4.
    + destruct Hmem' as [-> ?]. by rewrite Hother4.
Qed.

(** ** What the feed-dictionary builders leave alone *)

Section Frame.
Context `{Engine}.

Lemma same_but_memories_refl (w : world) : same_but_memories w w.
Proof. by repeat split. Qed.

Lemma same_but_memories_trans (w1 w2 w3 : world) :
  same_but_memories w1 w2 → same_but_memories w2 w3 → same_but_memories w1 w3.
Proof.
  unfold same_but_memories. intros (? & ? & ? & ? & ?) (? & ? & ? & ? & ?).
  split_and!; congruence.
Qed.

Lemma keeps_frame_bind {A B} (c : M world A) (k : A -> M world B) :
  keeps_frame c → (∀ a, keeps_frame (k a)) → keeps_frame (bind c k).
Proof.
  intros Hc Hk w. unfold bind. specialize (Hc w).
  destruct (c w) as [[a|e] w1]; simpl in *; [|done].
  eapply same_but_memories_trans; [done|apply Hk].
Qed.

Lemma keeps_frame_ret {A} (a : A) : keeps_frame (ret a).
Proof. intros w. apply same_but_memories_refl. Qed.

Lemma keeps_frame_lift {A} (r : result A) : keeps_frame (lift r).
Proof. intros w. apply same_but_memories_refl. Qed.

Lemma keeps_frame_get : keeps_frame get_brain_info.
Proof. intros w. apply same_but_memories_refl. Qed.

Lemma keeps_frame_set_memories (m : ndarray) : keeps_frame (set_memories m).
Proof. intros w. by repeat split. Qed.

Lemma keeps_frame_if {A} (b : bool) (c1 c2 : M world A) :
  keeps_frame c1 → keeps_frame c2 → keeps_frame (if b then c1 else c2).
Proof. by destruct b. Qed.

Ltac frame :=
  repeat first
    [ apply keeps_frame_ret | apply keeps_frame_lift | apply keeps_frame_get
    | apply keeps_frame_set_memories
    | apply keeps_frame_if
    | apply keeps_frame_bind; [|intros ?] ].

Lemma keeps_frame_seed (pol : SACPolicy) : keeps_frame (seed_empty_memory pol).
Proof. unfold seed_empty_memory. frame. Qed.

Lemma keeps_frame_evaluate_feed_dict (pol : SACPolicy) :
  keeps_frame (evaluate_feed_dict pol).
Proof. unfold evaluate_feed_dict. frame; apply keeps_frame_seed. Qed.

Lemma keeps_frame_gve_feed_dict (pol : SACPolicy) (idx : Z) :
  keeps_frame (gve_feed_dict pol idx).
Proof. unfold gve_feed_dict. frame; apply keeps_frame_seed. Qed.
End Frame.

(** ** Outcomes of evaluate and get_value_estimates *)

Lemma last_feed_snoc `{Engine} (g : graph_state) (l : list event)
    (fetches : list fetch) (fd : feed_dict) :
  last_feed (Session g (l ++ [EvRun fetches fd])) = fd.
Proof. unfold last_feed; simpl. by rewrite last_snoc. Qed.

Lemma evaluate_ok `{Engine} (pol : SACPolicy) (w : world) :
  is_ok (fst (evaluate pol w)) = true →
  ∃ fd w1, evaluate_feed_dict pol w = (Ok fd, w1)
           ∧ brain_info (snd (evaluate pol w)) = brain_info w1
           ∧ last_feed (sess (snd (evaluate pol w))) = fd.
Proof.
  rewrite evaluate_runs_feed_dict.
  destruct (evaluate_feed_dict pol w) as [[fd|e] w1]; [|done].
  intros _. exists fd, w1. cbv zeta; simpl. by rewrite last_feed_snoc.
Qed.

Lemma gve_ok `{Engine} (pol : SACPolicy) (idx : Z) (w : world) :
  is_ok (fst (get_value_estimates pol idx w)) = true →
  ∃ fd w1, gve_feed_dict pol idx w = (Ok fd, w1)
           ∧ brain_info (snd (get_value_estimates pol idx w)) = brain_info w1
           ∧ last_feed (sess (snd (get_value_estimates pol idx w))) = fd.
Proof.
  unfold get_value_estimates, bind.
  destruct (gve_feed_dict pol idx w) as [[fd|e] w1]; [|done].
  intros _. exists fd, w1.
  unfold with_sess, sess_run1. destruct (graph_run _ _ _); simpl.
  by rewrite last_feed_snoc.
Qed.

(** ** Rows of a zero array *)

Lemma py_index_lt (n : nat) (idx : Z) (k : nat) :
  py_index n idx = Some k → (k < n)%nat.
Proof.
  unfold py_index.
  destruct ((0 <=? idx) && (idx <? Z.of_nat n)) eqn:Hpos.
  - intros [= <-]. apply andb_true_iff in Hpos as [?%Z.leb_le ?%Z.ltb_lt]. lia.
  - destruct ((- Z.of_nat n <=? idx) && (idx <? 0)) eqn:Hneg; [|done].
    intros [= <-]. apply andb_true_iff in Hneg as [?%Z.leb_le ?%Z.ltb_lt]. lia.
Qed.

Lemma np_getitem_zeros (n : nat) (rest : list nat) (idx : Z) (row : ndarray) :
  np_getitem (np_zeros (n :: rest)) idx = Ok row → row = np_zeros rest.
Proof.
  unfold np_getitem, np_zeros; simpl.
  destruct (py_index n idx) as [k|] eqn:Hk; [|done].
  apply py_index_lt in Hk. intros [= <-]. f_equal.
  rewrite drop_replicate, take_replicate. f_equal. nia.
Qed.

Lemma all_zero_np_zeros (sh : list nat) : all_zero (np_zeros sh).
Proof. unfold all_zero, np_zeros; simpl. by apply Forall_replicate. Qed.

Lemma seeded_empty (pol : SACPolicy) (bi : BrainInfo) :
  shape_at (memories bi) 1 = Ok O →
  seeded pol bi = set_memories_field (make_empty_memory pol (length (agents bi))) bi.
Proof. unfold seeded. by intros ->. Qed.


(** ** Batch size and sequence length at inference *)




(** ** The lazy memory seed *)

(** C4, amended: in recurrent mode, when the batch's memory has width zero,
    [evaluate] binds memory-in to the zero array of shape
    (agent count, memory size), and [get_value_estimates] binds it to a
    one-element list holding the requested agent's row of that array, an
    all-zero row of length memory size; a memory of non-zero width is bound
    as supplied by [evaluate], and by its requested row by
    [get_value_estimates]. *)
Theorem lazy_memory_seed `{Engine} (pol : SACPolicy) (idx : Z) (w : world) :
  use_recurrent (base pol) = true →
  let bi := brain_info w in
  let seed := make_empty_memory pol (length (agents bi)) in
  (is_ok (fst (evaluate pol w)) = true →
     match shape_at (memories bi) 1 with
     | Ok O =>
         eval_feed pol w !! model_memory_in = Some (FArr seed)
         ∧ shape seed = [length (agents bi); m_size (base pol)]
         ∧ all_zero seed
     | _ => eval_feed pol w !! model_memory_in = Some (FArr (memories bi))
     end)
  ∧ (is_ok (fst (get_value_estimates pol idx w)) = true →
     match shape_at (memories bi) 1 with
     | Ok O =>
         ∃ row, np_getitem seed idx = Ok row
                ∧ gve_feed pol idx w !! model_memory_in = Some (FList [row])
                ∧ shape row = [m_size (base pol)]
                ∧ all_zero row
     | _ =>
         ∃ row, np_getitem (memories bi) idx = Ok row
                ∧ gve_feed pol idx w !! model_memory_in = Some (FList [row])
     end).
Proof.
  intros Hrec bi seed. split.
  - intros Hok. unfold eval_feed.
    apply evaluate_ok in Hok as (fd & w1 & Hfd & _ & ->).
    apply evaluate_feed_dict_inv in Hfd as (n & _ & _ & _ & _ & Hmem).
    rewrite Hrec in Hmem. destruct Hmem as (Hwidth & Hbi & Hfd).
    rewrite Hfd, Hbi. fold bi. unfold seeded.
    destruct (shape_at (memories bi) 1) as [[|k]|e]; try done.
    split_and!; [done|done|apply all_zero_np_zeros].
  - intros Hok. unfold gve_feed.
    apply gve_ok in Hok as (fd & w1 & Hfd & _ & ->).
    apply gve_feed_dict_inv in Hfd as (_ & _ & _ & _ & _ & Hmem).
    rewrite Hrec in Hmem. destruct Hmem as (Hwidth & Hbi & row & Hrow & Hfd).
    rewrite Hbi in Hrow. fold bi in Hrow, Hwidth. unfold seeded in Hrow.
    destruct (shape_at (memories bi) 1) as [[|k]|e]; try done; try by exists row.
    simpl in Hrow. exists row. split_and!; try done.
    + apply np_getitem_zeros in Hrow. by subst row.
    + apply np_getitem_zeros in Hrow. subst row. apply all_zero_np_zeros.
Qed.

Lemma lazy_memory_seed_witness :
  eval_feed Sample.pol Sample.start !! model_memory_in
  = Some (FArr (np_zeros [2; 3]%nat))
  ∧ gve_feed Sample.pol 1 Sample.start !! model_memory_in
    = Some (FList [np_zeros [3%nat]]).
Proof.
  destruct (lazy_memory_seed Sample.pol 1 Sample.start eq_refl) as [Heval Hgve].
  split.
  - apply Heval. reflexivity.
  - destruct (Hgve eq_refl) as (row & Hrow & Hfd & _).
    apply np_getitem_zeros in Hrow. by rewrite Hfd, Hrow.
Defined.

(** C4 as stated fails for [get_value_estimates]: with two agents and memory
    size 3 the memory-in it binds is one row, of shape (1, 3), not the
    (2, 3) seed. *)
Lemma get_value_estimates_binds_one_memory_row :
  ¬ memory_in_batch_shaped Sample.pol Sample.batch
      (gve_feed Sample.pol 0 Sample.start).
Proof.
  intros (v & Hv & Hshape).
  vm_compute in Hv. injection Hv as <-. vm_compute in Hshape. discriminate.
Qed.

(** ** In-place seeding of the caller's batch *)

Lemma evaluate_brain_info `{Engine} (pol : SACPolicy) (w : world) :
  brain_info (snd (evaluate pol w)) = brain_info (snd (evaluate_feed_dict pol w)).
Proof.
  rewrite evaluate_runs_feed_dict.
  by destruct (evaluate_feed_dict pol w) as [[fd|e] w1].
Qed.

Lemma gve_brain_info `{Engine} (pol : SACPolicy) (idx : Z) (w : world) :
  brain_info (snd (get_value_estimates pol idx w))
  = brain_info (snd (gve_feed_dict pol idx w)).
Proof.
  unfold get_value_estimates, bind.
  destruct (gve_feed_dict pol idx w) as [[fd|e] w1]; [|done].
  unfold with_sess. by destruct (sess_run1 _ _ _).
Qed.

Lemma seed_differs (pol : SACPolicy) (bi : BrainInfo) (n : nat) :
  shape_at (memories bi) 1 = Ok O → m_size (base pol) ≠ O →
  set_memories_field (make_empty_memory pol n) bi ≠ bi.
Proof.
  intros Hwidth Hm Heq.
  apply (f_equal (fun b => shape_at (memories b) 1)) in Heq.
  rewrite Hwidth in Heq. unfold shape_at in Heq; simpl in Heq. by injection Heq.
Qed.

(** C10: whatever their outcome, [evaluate] and [get_value_estimates]
    change no field of the caller's batch other than its memory.  In
    recurrent mode, on a batch whose memory has width zero, a call that
    returns has overwritten the memory field of the batch with the zero
    array of shape (agent count, memory size); with a non-zero memory size
    the batch is then no longer what the caller passed in. *)
Theorem empty_memory_seeded_in_place `{Engine} (pol : SACPolicy) (idx : Z) (w : world) :
  let bi := brain_info w in
  let seed := make_empty_memory pol (length (agents bi)) in
  let after_evaluate := brain_info (snd (evaluate pol w)) in
  let after_gve := brain_info (snd (get_value_estimates pol idx w)) in
  (∀ bi', bi' = after_evaluate ∨ bi' = after_gve →
     visual_observations bi' = visual_observations bi
     ∧ vector_observations bi' = vector_observations bi
     ∧ previous_vector_actions bi' = previous_vector_actions bi
     ∧ agents bi' = agents bi)
  ∧ (use_recurrent (base pol) = true → shape_at (memories bi) 1 = Ok O →
     ∀ bi', (is_ok (fst (evaluate pol w)) = true ∧ bi' = after_evaluate)
            ∨ (is_ok (fst (get_value_estimates pol idx w)) = true ∧ bi' = after_gve) →
       memories bi' = seed
       ∧ bi' = set_memories_field seed bi
       ∧ (m_size (base pol) ≠ O → bi' ≠ bi)).
Proof.
  intros bi seed after_evaluate after_gve. split.
  - intros bi' [-> | ->]; subst after_evaluate after_gve.
    + rewrite evaluate_brain_info.
      destruct (keeps_frame_evaluate_feed_dict pol w) as (? & ? & ? & ? & _). done.
    + rewrite gve_brain_info.
      destruct (keeps_frame_gve_feed_dict pol idx w) as (? & ? & ? & ? & _). done.
  - intros Hrec Hwidth bi' Hcase.
    assert (bi' = set_memories_field seed bi) as ->.
    { destruct Hcase as [[Hok ->] | [Hok ->]]; subst after_evaluate after_gve bi seed.
      - apply evaluate_ok in Hok as (fd & w1 & Hfd & -> & _).
        apply evaluate_feed_dict_inv in Hfd as (n & _ & _ & _ & _ & Hmem).
        rewrite Hrec in Hmem. destruct Hmem as (_ & -> & _). by apply seeded_empty.
      - apply gve_ok in Hok as (fd & w1 & Hfd & -> & _).
        apply gve_feed_dict_inv in Hfd as (_ & _ & _ & _ & _ & Hmem).
        rewrite Hrec in Hmem. destruct Hmem as (_ & -> & _). by apply seeded_empty. }
    split_and!; [done|done|]. intros Hm. by apply seed_differs.
Qed.

Lemma empty_memory_seeded_in_place_witness :
  memories (brain_info (snd (evaluate Sample.pol Sample.start))) = np_zeros [2; 3]%nat
  ∧ memories (brain_info (snd (get_value_estimates Sample.pol 1 Sample.start)))
    = np_zeros [2; 3]%nat
  ∧ brain_info (snd (evaluate Sample.pol Sample.start)) ≠ Sample.batch.
Proof.
  destruct (empty_memory_seeded_in_place Sample.pol 1 Sample.start) as [_ Hseed].
  specialize (Hseed eq_refl eq_refl).
  split_and!.
  - apply (Hseed _ (or_introl (conj eq_refl eq_refl))).
  - apply (Hseed _ (or_intror (conj eq_refl eq_refl))).
  - apply (Hseed _ (or_introl (conj eq_refl eq_refl))). discriminate.
Defined.

(** ** The normalisation update *)

Lemma graph_run_norm `{Engine} (fetches : list fetch) (fd : feed_dict) (g : graph_state) :
  ¬ In model_update_normalization fetches →
  norm (snd (graph_run fetches fd g)) = norm g.
Proof.
  unfold graph_run; simpl. revert g.
  induction fetches as [|f fetches IH]; intros g Hnot; simpl; [done|].
  rewrite IH by (intros Hin; apply Hnot; by right).
  destruct f; simpl; try done.
  - exfalso. apply Hnot. by left.
  - by destruct (fd !! model_new_reward) as [[]|].
Qed.

Lemma evaluate_norm `{Engine} (pol : SACPolicy) (w : world) :
  ¬ update_mean_requested (inference_dict pol) →
  norm (graph (sess (snd (evaluate pol w)))) = norm (graph (sess w)).
Proof.
  intros Hnot. rewrite evaluate_runs_feed_dict.
  destruct (keeps_frame_evaluate_feed_dict pol w) as (_ & _ & _ & _ & Hsess).
  destruct (evaluate_feed_dict pol w) as [[fd|e] w1]; cbv zeta; simpl in *.
  - rewrite <- Hsess. by apply graph_run_norm.
  - by rewrite Hsess.
Qed.

Lemma gve_norm `{Engine} (pol : SACPolicy) (idx : Z) (w : world) :
  norm (graph (sess (snd (get_value_estimates pol idx w)))) = norm (graph (sess w)).
Proof.
  unfold get_value_estimates, bind.
  destruct (keeps_frame_gve_feed_dict pol idx w) as (_ & _ & _ & _ & Hsess).
  destruct (gve_feed_dict pol idx w) as [[fd|e] w1]; simpl in *.
  - unfold with_sess, sess_run1, graph_run; simpl. by rewrite Hsess.
  - by rewrite Hsess.
Qed.

Lemma get_action_norm `{Engine} (pol : SACPolicy) (w : world) :
  ¬ update_mean_requested (inference_dict pol) →
  norm (graph (sess (snd (get_action pol w)))) = norm (graph (sess w)).
Proof.
  intros Hnot. unfold get_action, bind, get_brain_info.
  destruct (agents (brain_info w)); simpl; [done|].
  rewrite <- (evaluate_norm pol w Hnot).
  by destruct (evaluate pol w) as [[run_out|e] w'].
Qed.

(** C8, amended: the normalisation update is among the outputs [evaluate]
    requests exactly when training is active, vector observations are in
    use, normalisation is enabled and the session is not a loaded one; when
    it is not requested, no inference call ([evaluate],
    [get_value_estimates], [get_action]) changes the normalisation
    statistics. *)
Theorem normalization_update_gate `{Engine} (self : Policy) (brain : BrainParameters)
    (trainer_params : TrainerParams) (is_training load : bool) :
  let pol := new_SACPolicy self brain trainer_params is_training load in
  (update_mean_requested (inference_dict pol)
   ↔ is_training = true ∧ use_vec_obs self = true
     ∧ cfg_normalize trainer_params = true ∧ load = false)
  ∧ (¬ update_mean_requested (inference_dict pol) →
     ∀ (w : world) (idx : Z),
       norm (graph (sess (snd (evaluate pol w)))) = norm (graph (sess w))
       ∧ norm (graph (sess (snd (get_value_estimates pol idx w)))) = norm (graph (sess w))
       ∧ norm (graph (sess (snd (get_action pol w)))) = norm (graph (sess w))).
Proof.
  intros pol. split.
  - unfold update_mean_requested, pol, new_SACPolicy, inference_dict_of; simpl.
    destruct (use_recurrent self), is_training, (use_vec_obs self),
      (cfg_normalize trainer_params), load; simpl; intuition discriminate.
  - intros Hnot w idx. split_and!.
    + by apply evaluate_norm.
    + apply gve_norm.
    + by apply get_action_norm.
Qed.

(** C8 as stated fails: a policy without vector observations, in training,
    with normalisation enabled and a fresh session, does not request the
    normalisation update. *)
Lemma no_update_mean_without_vector_observations :
  ¬ (update_mean_requested
       (inference_dict (new_SACPolicy Sample.visual_only_self Sample.brain_params
                          Sample.config true false))
     ↔ cfg_normalize Sample.config = true ∧ true = true ∧ false = false).
Proof.
  intros [_ Hback]. specialize (Hback (conj eq_refl (conj eq_refl eq_refl))).
  vm_compute in Hback. repeat destruct Hback as [Hback|Hback]; discriminate || done.
Qed.

(** ** The registry and the model's reward slots *)

Lemma dict_get_in_keys {V} (d : odict V) (k : string) (v : V) :
  dict_get d k = Some v → k ∈ dict_keys d.
Proof.
  induction d as [|[k' v'] d IH]; simpl; [done|].
  destruct (String.eqb k' k) eqn:Hk.
  - apply String.eqb_eq in Hk as ->. intros _. apply list_elem_of_here.
  - intros Hget. apply list_elem_of_further. by apply IH.
Qed.

(** The registry holds recognised names only, each once, and each is a key
    of the strength mapping. *)
Lemma registry_keys (trainer_params : TrainerParams) :
  NoDup (dict_keys (registry_of trainer_params))
  ∧ ∀ name, name ∈ dict_keys (registry_of trainer_params) →
            name ∈ dict_keys (reward_strengths_of trainer_params).
Proof.
  unfold registry_of, registry_add.
  destruct (dict_get (reward_strengths_of trainer_params) "extrinsic") eqn:He;
    destruct (dict_get (reward_strengths_of trainer_params) "curiosity") eqn:Hc;
    destruct (dict_get (reward_strengths_of trainer_params) "gail") eqn:Hg;
    destruct (dict_get (reward_strengths_of trainer_params) "entropy") eqn:Hn;
    simpl;
    (split;
     [ apply (bool_decide_unpack _); reflexivity
     | intros name Hin;
       repeat (apply elem_of_cons in Hin as [-> | Hin];
               [eauto using @dict_get_in_keys|]);
       by apply elem_of_nil in Hin ]).
Qed.

(** The model has at least as many reward slots as the registry has
    signals. *)
Lemma registry_fits_reward_slots (self : Policy) (brain : BrainParameters)
    (trainer_params : TrainerParams) (is_training load : bool) :
  let pol := new_SACPolicy self brain trainer_params is_training load in
  (length (dict_keys (reward_signals pol)) ≤ length (stream_names (model pol)))%nat.
Proof.
  simpl. destruct (registry_keys trainer_params) as [Hnodup Hsub].
  apply submseteq_length. by apply NoDup_submseteq.
Qed.

Lemma rewards_holders_getitem (m : SACModel) (i : nat) :
  (i < length (stream_names m))%nat →
  list_getitem (rewards_holders m) i = Ok (model_rewards_holder i).
Proof.
  intros Hi. unfold list_getitem, rewards_holders.
  by rewrite list_lookup_fmap, lookup_seq_lt.
Qed.

(** ** The reward bindings of update *)

Lemma rewards_holders_getitem_inv (m : SACModel) (i : nat) (holder : placeholder) :
  list_getitem (rewards_holders m) i = Ok holder → holder = model_rewards_holder i.
Proof.
  unfold list_getitem, rewards_holders. rewrite list_lookup_fmap.
  destruct (seq 0 (length (stream_names m)) !! i) as [k|] eqn:Hk; simpl; [|done].
  apply lookup_seq in Hk as [-> _]. by intros [= <-].
Qed.

(** The loop binds the column of the [j]-th name to the [j]-th slot. *)
Lemma bind_rewards_inv `{Engine} (pol : SACPolicy) (mini_batch : gmap string ndarray)
    (names : list string) :
  ∀ (i : nat) (fd0 fd : feed_dict),
    bind_rewards pol mini_batch i names fd0 = Ok fd →
    (∀ j name, names !! j = Some name →
       ∃ col, mini_batch !! rewards_key name = Some col
              ∧ fd !! model_rewards_holder (i + j) = Some (FArr (flatten col)))
    ∧ (∀ p, (∀ k, (i ≤ k)%nat → p ≠ model_rewards_holder k) → fd !! p = fd0 !! p).
Proof.
  induction names as [|name names IH]; intros i fd0 fd; simpl.
  - intros [= <-]. split; [by intros j name Hj|done].
  - unfold mb_get.
    destruct (mini_batch !! rewards_key name) as [col|] eqn:Hcol; simpl; [|done].
    destruct (list_getitem (rewards_holders (model pol)) i) as [holder|e] eqn:Hh;
      simpl; [|done].
    apply rewards_holders_getitem_inv in Hh as ->.
    intros Hrest. apply IH in Hrest as [Hbound Hother]. split.
    + intros [|j] name' Hj; simpl in Hj.
      * injection Hj as <-. exists col. split; [done|].
        rewrite Nat.add_0_r, Hother; [apply lookup_insert_eq|].
        intros k Hk [= ->]. lia.
      * destruct (Hbound j name' Hj) as (col' & ? & ?). exists col'.
        by rewrite <- Nat.add_succ_comm.
    + intros p Hp. rewrite Hother.
      * apply lookup_insert_ne. intros <-. by apply (Hp i).
      * intros k Hk. apply Hp. lia.
Qed.

Lemma bind_rewards_ok `{Engine} (pol : SACPolicy) (mini_batch : gmap string ndarray)
    (names : list string) :
  ∀ (i : nat) (fd : feed_dict),
    (i + length names ≤ length (stream_names (model pol)))%nat →
    is_ok (bind_rewards pol mini_batch i names fd) = true
    ↔ ∀ name, In name names → is_Some (mini_batch !! rewards_key name).
Proof.
  induction names as [|name names IH]; intros i fd Hlen; simpl in *.
  - split; [by intros _ name []|done].
  - unfold mb_get.
    destruct (mini_batch !! rewards_key name) as [col|] eqn:Hcol; simpl.
    + rewrite rewards_holders_getitem by lia. simpl.
      rewrite IH by lia. split.
      * intros Hall name' [<- | Hin]; [by rewrite Hcol|by apply Hall].
      * intros Hall name' Hin. apply Hall. by right.
    + split; [done|]. intros Hall.
      destruct (Hall name (or_introl eq_refl)) as [col Hsome]. congruence.
Qed.

Lemma bind_rewards_superset `{Engine} (pol : SACPolicy)
    (mini_batch larger : gmap string ndarray) (names : list string) :
  mini_batch ⊆ larger →
  ∀ (i : nat) (fd : feed_dict),
    is_ok (bind_rewards pol mini_batch i names fd) = true →
    bind_rewards pol larger i names fd = bind_rewards pol mini_batch i names fd.
Proof.
  intros Hsub. induction names as [|name names IH]; intros i fd; simpl; [done|].
  unfold mb_get.
  destruct (mini_batch !! rewards_key name) as [col|] eqn:Hcol; simpl; [|done].
  rewrite (lookup_weaken _ _ _ _ Hcol Hsub). simpl.
  destruct (list_getitem (rewards_holders (model pol)) i); simpl; [|done].
  apply IH.
Qed.

Lemma update_raises_without_feed_dict `{Engine} (pol : SACPolicy)
    (mini_batch : gmap string ndarray) (num_sequences : Z) (ut : option bool)
    (s : session) (e : py_error) :
  update_feed_dict pol mini_batch num_sequences = Raise e →
  update pol mini_batch num_sequences ut s = (Raise e, s).
Proof. unfold update, bind, lift. by intros ->. Qed.

(** ** The visual bindings of update *)

Lemma reshape_collapse (a : ndarray) (w h c : nat) :
  reshape a [-1; Z.of_nat w; Z.of_nat h; Z.of_nat c]
  = let size := size_of (shape a) in
    let known := size_of [w; h; c] in
    if (known =? 0)%nat || negb (size mod known =? 0)%nat then Raise ValueError
    else Ok (NDArray [(size / known)%nat; w; h; c] (data a)).
Proof.
  unfold reshape.
  assert (∀ n : nat, (Z.of_nat n <? -1) = false) as Hlt
    by (intros n; apply Z.ltb_ge; lia).
  assert (∀ n : nat, (Z.of_nat n =? -1) = false) as Heqb
    by (intros n; apply Z.eqb_neq; lia).
  simpl existsb. rewrite !Hlt. simpl orb. cbv iota.
  rewrite (filter_cons_True (λ d, d = -1)) by done.
  rewrite !(filter_cons_False (λ d, d = -1)) by lia.
  rewrite (filter_cons_False (λ d, d ≠ -1)) by (intros Hne; by apply Hne).
  rewrite !(filter_cons_True (λ d, d ≠ -1)) by lia.
  rewrite !filter_nil. simpl length. cbv iota.
  simpl map. rewrite !Nat2Z.id, !Heqb. cbv zeta. simpl (_ =? _)%Z. cbv iota.
  done.
Qed.

Lemma visual_binding_collapse `{Engine} (pol : SACPolicy) (obs : ndarray)
    (B L W H' C : nat) :
  1 < sequence_length (base pol) → use_recurrent (base pol) = true →
  shape obs = [B; L; W; H'; C] →
  (∀ bound, visual_binding pol obs = Ok bound →
            bound = NDArray [(B * L)%nat; W; H'; C] (data obs))
  ∧ ((0 < W * H' * C)%nat → is_ok (visual_binding pol obs) = true).
Proof.
  intros Hseq Hrec Hshape. unfold visual_binding.
  apply Z.ltb_lt in Hseq. rewrite Hseq, Hrec, Hshape. simpl.
  rewrite reshape_collapse, Hshape. cbv zeta.
  remember (size_of [W; H'; C]) as known eqn:Hknown.
  assert (size_of [B; L; W; H'; C] = (B * L * known)%nat) as ->
    by (subst known; simpl; lia).
  destruct (known =? 0)%nat eqn:Hzero; simpl.
  - split; [done|]. apply Nat.eqb_eq in Hzero. subst known. simpl in Hzero. nia.
  - apply Nat.eqb_neq in Hzero.
    rewrite Nat.Div0.mod_mul, Nat.div_mul by done. simpl.
    split; [|done]. by intros bound [= <-].
Qed.

Lemma visual_binding_passthrough `{Engine} (pol : SACPolicy) (obs : ndarray) :
  sequence_length (base pol) = 1 ∨ use_recurrent (base pol) = false →
  visual_binding pol obs = Ok obs.
Proof.
  unfold visual_binding. intros [-> | ->]; [done|].
  by rewrite andb_false_r.
Qed.

Lemma bind_visual_inv `{Engine} (pol : SACPolicy) (mini_batch : gmap string ndarray)
    (column : nat -> string) (mk : nat -> placeholder) :
  (∀ i j, mk i = mk j → i = j) →
  ∀ (k i0 : nat) (fd0 fd : feed_dict),
    bind_visual pol mini_batch column i0 (mk <$> seq i0 k) fd0 = Ok fd →
    (∀ j, (j < k)%nat →
       ∃ obs bound, mini_batch !! column (i0 + j)%nat = Some obs
                    ∧ visual_binding pol obs = Ok bound
                    ∧ fd !! mk (i0 + j)%nat = Some (FArr bound))
    ∧ (∀ p, (∀ i, (i0 ≤ i)%nat → p ≠ mk i) → fd !! p = fd0 !! p).
Proof.
  intros Hinj. induction k as [|k IH]; intros i0 fd0 fd; simpl.
  - intros [= <-]. split; [intros j Hj; lia|done].
  - unfold mb_get.
    destruct (mini_batch !! column i0) as [obs|] eqn:Hobs; simpl; [|done].
    destruct (visual_binding pol obs) as [bound|e] eqn:Hbound; simpl; [|done].
    intros Hrest. apply IH in Hrest as [Hbind Hother]. split.
    + intros [|j] Hj.
      * exists obs, bound. rewrite Nat.add_0_r. split_and!; [done|done|].
        rewrite Hother; [apply lookup_insert_eq|].
        intros i Hi Heq. apply Hinj in Heq. lia.
      * destruct (Hbind j) as (obs' & bound' & ? & ? & ?); [lia|].
        exists obs', bound'. by rewrite <- Nat.add_succ_comm.
    + intros p Hp. rewrite Hother.
      * apply lookup_insert_ne. intros <-. by apply (Hp i0).
      * intros i Hi. apply Hp. lia.
Qed.

Lemma update_feed_dict_inv `{Engine} (pol : SACPolicy)
    (mini_batch : gmap string ndarray) (num_sequences : Z) (fd : feed_dict) :
  update_feed_dict pol mini_batch num_sequences = Ok fd →
  ∃ fd3 fd5,
    (if 0 <? vis_obs_size (model pol) then
       fd4 <~ bind_visual pol mini_batch visual_obs_key 0 (visual_in (model pol)) fd3 ;;
       bind_visual pol mini_batch next_visual_obs_key 0 (next_visual_in (model pol)) fd4
     else Ok fd3) = Ok fd5
    ∧ ∀ p, p ≠ model_memory_in → p ≠ model_dones_holder → fd !! p = fd5 !! p.
Proof.
  intros Heq. unfold update_feed_dict in Heq. cbv zeta in Heq.
  apply rbind_inv in Heq as (masks & _ & Heq).
  apply rbind_inv in Heq as (fd1 & _ & Heq).
  apply rbind_inv in Heq as (fd2 & _ & Heq).
  apply rbind_inv in Heq as (fd3 & _ & Heq).
  apply rbind_inv in Heq as (fd5 & Hvis & Heq).
  apply rbind_inv in Heq as (fd6 & Hmem & Heq).
  apply rbind_inv in Heq as (done_col & _ & Heq).
  injection Heq as <-.
  exists fd3, fd5. split; [exact Hvis|].
  intros p Hp1 Hp2. rewrite lookup_insert_ne by done.
  destruct (use_recurrent (base pol)).
  - apply rbind_inv in Hmem as (mem & _ & Hmem).
    apply rbind_inv in Hmem as (mem_in & _ & Hmem).
    injection Hmem as <-. by rewrite lookup_insert_ne.
  - by injection Hmem as <-.
Qed.

(** C5: in the feed dictionary of [update], every visual stream and every
    next-step visual stream is bound as follows: with a sequence length
    above 1 and recurrent mode on, a column of shape (B, L, W, H, C) is
    bound with shape (B*L, W, H, C) and the same elements; with sequence
    length 1, or recurrent mode off, the column is bound as it is. *)
Theorem visual_sequence_collapse `{Engine} (pol : SACPolicy)
    (mini_batch : gmap string ndarray) (num_sequences : Z) (fd : feed_dict) :
  update_feed_dict pol mini_batch num_sequences = Ok fd →
  0 < vis_obs_size (model pol) →
  ∀ (next : bool) (i : nat) (obs : ndarray),
    let count := if next then next_visual_in_count (model pol)
                 else visual_in_count (model pol) in
    let column := if next then next_visual_obs_key i else visual_obs_key i in
    let holder := if next then model_next_visual_in i else model_visual_in i in
    (i < count)%nat →
    mini_batch !! column = Some obs →
    (1 < sequence_length (base pol) → use_recurrent (base pol) = true →
     ∀ B L W H' C, shape obs = [B; L; W; H'; C] →
       fd !! holder = Some (FArr (NDArray [(B * L)%nat; W; H'; C] (data obs))))
    ∧ (sequence_length (base pol) = 1 ∨ use_recurrent (base pol) = false →
       fd !! holder = Some (FArr obs)).
Proof.
  intros Heq Hvis next i obs count column holder Hi Hobs.
  apply update_feed_dict_inv in Heq as (fd3 & fd5 & Hstage & Hlater).
  apply Z.ltb_lt in Hvis. rewrite Hvis in Hstage.
  apply rbind_inv in Hstage as (fd4 & Hcur & Hnext).
  unfold visual_in in Hcur. unfold next_visual_in in Hnext.
  apply bind_visual_inv in Hcur as [Hcur Hcur_other]; [|by intros ? ? [= ->]].
  apply bind_visual_inv in Hnext as [Hnext Hnext_other]; [|by intros ? ? [= ->]].
  assert (∃ bound, visual_binding pol obs = Ok bound
                   ∧ fd !! holder = Some (FArr bound)) as (bound & Hbound & Hfd).
  { subst count column holder. destruct next.
    - destruct (Hnext i Hi) as (obs' & bound & Hobs' & Hbound & Hfd5).
      simpl in *. exists bound. rewrite Hlater by done. by simplify_eq.
    - destruct (Hcur i Hi) as (obs' & bound & Hobs' & Hbound & Hfd4).
      simpl in *. exists bound. rewrite Hlater, Hnext_other by done. by simplify_eq. }
  rewrite Hfd. split.
  - intros Hseq Hrec B L W H' C Hshape.
    destruct (visual_binding_collapse pol obs B L W H' C Hseq Hrec Hshape) as [Hval _].
    by rewrite (Hval bound Hbound).
  - intros Hpass. rewrite (visual_binding_passthrough pol obs Hpass) in Hbound.
    by injection Hbound as <-.
Qed.

Lemma visual_sequence_collapse_witness :
  Sample.update_feed !! model_visual_in 0
  = Some (FArr (NDArray [4; 1; 1; 1]%nat (data (Sample.zeros [2; 2; 1; 1; 1])))).
Proof.
  refine (proj1 (@visual_sequence_collapse counting_engine Sample.pol Sample.mini_batch 2
                   Sample.update_feed _ _ false 0%nat (Sample.zeros [2; 2; 1; 1; 1]) _ _)
            _ _ 2%nat 2%nat 1%nat 1%nat 1%nat _).
  - vm_compute. reflexivity.
  - reflexivity.
  - simpl. lia.
  - reflexivity.
  - reflexivity.
  - reflexivity.
  - reflexivity.
Defined.

(** ** The reward slots bound by update *)

(** The stages of [update] after the reward loop bind no reward slot. *)
Lemma update_feed_dict_rewards_stage `{Engine} (pol : SACPolicy)
    (mini_batch : gmap string ndarray) (num_sequences : Z) (fd : feed_dict) :
  update_feed_dict pol mini_batch num_sequences = Ok fd →
  ∃ fd0 fd1,
    bind_rewards pol mini_batch 0 (dict_keys (reward_signals pol)) fd0 = Ok fd1
    ∧ ∀ j, fd !! model_rewards_holder j = fd1 !! model_rewards_holder j.
Proof.
  intros Heq. unfold update_feed_dict in Heq. cbv zeta in Heq.
  apply rbind_inv in Heq as (masks & _ & Heq).
  apply rbind_inv in Heq as (fd1 & Hrewards & Heq).
  apply rbind_inv in Heq as (fd2 & Hact & Heq).
  apply rbind_inv in Heq as (fd3 & Hvec & Heq).
  apply rbind_inv in Heq as (fd5 & Hvis & Heq).
  apply rbind_inv in Heq as (fd6 & Hmem & Heq).
  apply rbind_inv in Heq as (done_col & _ & Heq).
  injection Heq as <-.
  eexists _, fd1. split; [exact Hrewards|]. intros j.
  rewrite lookup_insert_ne by done.
  assert (fd6 !! model_rewards_holder j = fd5 !! model_rewards_holder j) as ->.
  { destruct (use_recurrent (base pol)); rinv; simplify_eq; [|done].
    by rewrite lookup_insert_ne. }
  assert (fd5 !! model_rewards_holder j = fd3 !! model_rewards_holder j) as ->.
  { destruct (0 <? vis_obs_size (model pol)); [|by simplify_eq].
    apply rbind_inv in Hvis as (fd4 & Hcur & Hnext).
    unfold visual_in in Hcur. unfold next_visual_in in Hnext.
    apply bind_visual_inv in Hcur as [_ Hcur]; [|by intros ? ? [= ->]].
    apply bind_visual_inv in Hnext as [_ Hnext]; [|by intros ? ? [= ->]].
    by rewrite Hnext, Hcur. }
  assert (fd3 !! model_rewards_holder j = fd2 !! model_rewards_holder j) as ->.
  { destruct (use_vec_obs (base pol)); rinv; simplify_eq; [|done].
    by rewrite !lookup_insert_ne. }
  destruct (use_continuous_act (base pol)); rinv.
  - simplify_eq. by rewrite lookup_insert_ne.
  - destruct (use_recurrent (base pol)); rinv; simplify_eq;
      by rewrite !lookup_insert_ne.
Qed.

(** Whatever the configuration, [update] binds the column of the [j]-th
    name of the registry to the [j]-th reward slot of the model. *)
Lemma update_binds_rewards_by_registry_position `{Engine} (pol : SACPolicy)
    (mini_batch : gmap string ndarray) (num_sequences : Z) (fd : feed_dict)
    (j : nat) (name : string) :
  update_feed_dict pol mini_batch num_sequences = Ok fd →
  dict_keys (reward_signals pol) !! j = Some name →
  ∃ col, mini_batch !! rewards_key name = Some col
         ∧ fd !! model_rewards_holder j = Some (FArr (flatten col)).
Proof.
  intros Heq Hname.
  apply update_feed_dict_rewards_stage in Heq as (fd0 & fd1 & Hrewards & Hsame).
  apply bind_rewards_inv in Hrewards as [Hbound _].
  destruct (Hbound j name Hname) as (col & Hcol & Hfd). exists col.
  by rewrite Hsame.
Qed.

(** C1 fails on these configurations.  With the signals configured in the
    order curiosity, extrinsic, the model created slot 0 for curiosity and
    slot 1 for extrinsic; the registry is filled in the order extrinsic,
    curiosity, so [update] binds the extrinsic column to slot 0 and the
    curiosity column to slot 1.  With an unrecognised name configured before
    extrinsic, the model created slot 1 for extrinsic, and [update] binds
    the extrinsic column to slot 0 and nothing to slot 1. *)
Lemma reward_slots_swapped :
  (stream_names (model Sample.pol) = ["curiosity"; "extrinsic"]%string
   ∧ dict_keys (reward_signals Sample.pol) = ["extrinsic"; "curiosity"]%string
   ∧ model_slot (model Sample.pol) "extrinsic" = Some (model_rewards_holder 1)
   ∧ model_slot (model Sample.pol) "curiosity" = Some (model_rewards_holder 0)
   ∧ update_feed_dict Sample.pol Sample.mini_batch 2 = Ok Sample.update_feed
   ∧ Sample.mini_batch !! rewards_key "extrinsic"
     = Some (NDArray [4%nat] [1%float; 1%float; 1%float; 1%float])
   ∧ Sample.update_feed !! model_rewards_holder 0
     = Some (FArr (NDArray [4%nat] [1%float; 1%float; 1%float; 1%float]))
   ∧ Sample.update_feed !! model_rewards_holder 1
     = Some (FArr (NDArray [4%nat] [2%float; 2%float; 2%float; 2%float])))
  ∧ (stream_names (model Sample.pol_unrecognised) = ["custom"; "extrinsic"]%string
     ∧ dict_keys (reward_signals Sample.pol_unrecognised) = ["extrinsic"]%string
     ∧ model_slot (model Sample.pol_unrecognised) "extrinsic"
       = Some (model_rewards_holder 1)
     ∧ match update_feed_dict Sample.pol_unrecognised Sample.mini_batch 2 with
       | Ok fd =>
           fd !! model_rewards_holder 0
           = Some (FArr (NDArray [4%nat] [1%float; 1%float; 1%float; 1%float]))
           ∧ fd !! model_rewards_holder 1 = None
       | Raise _ => False
       end).
Proof. split; split_and!; vm_compute; try reflexivity; by split. Qed.

(** * Further properties of the policy *)

(** ** The stages of update's feed dictionary *)

Lemma mb_get_inv `{Engine} (mini_batch : gmap string ndarray) (key : string) (a : ndarray) :
  mb_get mini_batch key = Ok a → mini_batch !! key = Some a.
Proof. unfold mb_get. destruct (mini_batch !! key); by intros [= ->]. Qed.

Lemma list_getitem_inv {A} (l : list A) (i : nat) (x : A) :
  list_getitem l i = Ok x → l !! i = Some x.
Proof. unfold list_getitem. destruct (l !! i); by intros [= ->]. Qed.

(** The loop over a list of visual inputs binds its own holders only. *)
Lemma bind_visual_range `{Engine} (pol : SACPolicy) (mini_batch : gmap string ndarray)
    (column : nat -> string) (mk : nat -> placeholder) :
  ∀ (k i0 : nat) (fd0 fd : feed_dict),
    bind_visual pol mini_batch column i0 (mk <$> seq i0 k) fd0 = Ok fd →
    ∀ p, (∀ i, (i0 ≤ i < i0 + k)%nat → p ≠ mk i) → fd !! p = fd0 !! p.
Proof.
  induction k as [|k IH]; intros i0 fd0 fd; simpl.
  - by intros [= <-].
  - intros Heq p Hp. rinv. rewrite (IH _ _ _ Heq).
    + apply lookup_insert_ne. intros <-. apply (Hp i0); [lia|done].
    + intros i Hi. apply Hp. lia.
Qed.

Lemma bind_rewards_range `{Engine} (pol : SACPolicy) (mini_batch : gmap string ndarray)
    (names : list string) :
  ∀ (i : nat) (fd0 fd : feed_dict),
    bind_rewards pol mini_batch i names fd0 = Ok fd →
    ∀ p, (∀ k, (i ≤ k < i + length names)%nat → p ≠ model_rewards_holder k) →
         fd !! p = fd0 !! p.
Proof.
  induction names as [|name names IH]; intros i fd0 fd; simpl.
  - by intros [= <-].
  - intros Heq p Hp. rinv.
    match goal with
    | Hh : list_getitem (rewards_holders _) i = Ok _ |- _ =>
        apply rewards_holders_getitem_inv in Hh as ->
    end.
    rewrite (IH _ _ _ Heq).
    + apply lookup_insert_ne. intros <-. apply (Hp i); [lia|done].
    + intros k Hk. apply Hp. lia.
Qed.

(** A feed dictionary that [update] built went through these stages. *)
Lemma update_feed_dict_stages `{Engine} (pol : SACPolicy)
    (mini_batch : gmap string ndarray) (num_sequences : Z) (fd : feed_dict) :
  update_feed_dict pol mini_batch num_sequences = Ok fd →
  let branches := Z.of_nat (length (act_size (model pol))) in
  ∃ masks done_col fd1 fd2 fd3 fd5 fd6,
    mini_batch !! "masks"%string = Some masks
    ∧ mini_batch !! "done"%string = Some done_col
    ∧ bind_rewards pol mini_batch 0 (dict_keys (reward_signals pol))
        (<[model_mask_input := FArr (flatten masks)]>
           (<[model_sequence_length := FInt (sequence_length (base pol))]>
              (<[model_batch_size := FInt num_sequences]> ∅))) = Ok fd1
    ∧ (∃ actions a,
         mini_batch !! "actions"%string = Some actions
         ∧ if use_continuous_act (base pol) then
             ∃ dim, act_size (model pol) !! 0%nat = Some dim
                    ∧ reshape actions [-1; dim] = Ok a
                    ∧ fd2 = <[model_action_holder := FArr a]> fd1
           else
             ∃ mask m,
               reshape actions [-1; branches] = Ok a
               ∧ mini_batch !! "action_mask"%string = Some mask
               ∧ reshape mask [-1; sum_Z (vector_action_space_size (brain (base pol)))]
                 = Ok m
               ∧ if use_recurrent (base pol) then
                   ∃ prev p,
                     mini_batch !! "prev_action"%string = Some prev
                     ∧ reshape prev [-1; branches] = Ok p
                     ∧ fd2 = <[model_action_masks := FArr m]>
                               (<[model_prev_action := FArr p]>
                                  (<[model_action_holder := FArr a]> fd1))
                 else
                   fd2 = <[model_action_masks := FArr m]>
                           (<[model_action_holder := FArr a]> fd1))
    ∧ (if use_vec_obs (base pol) then
         ∃ obs v next_obs nv,
           mini_batch !! "vector_obs"%string = Some obs
           ∧ reshape obs [-1; vec_obs_size (base pol)] = Ok v
           ∧ mini_batch !! "next_vector_in"%string = Some next_obs
           ∧ reshape next_obs [-1; vec_obs_size (base pol)] = Ok nv
           ∧ fd3 = <[model_next_vector_in := FArr nv]> (<[model_vector_in := FArr v]> fd2)
       else fd3 = fd2)
    ∧ (if 0 <? vis_obs_size (model pol) then
         (∀ i, (i < visual_in_count (model pol))%nat →
            ∃ obs bound, mini_batch !! visual_obs_key i = Some obs
                         ∧ visual_binding pol obs = Ok bound
                         ∧ fd5 !! model_visual_in i = Some (FArr bound))
         ∧ (∀ i, (i < next_visual_in_count (model pol))%nat →
              ∃ obs bound, mini_batch !! next_visual_obs_key i = Some obs
                           ∧ visual_binding pol obs = Ok bound
                           ∧ fd5 !! model_next_visual_in i = Some (FArr bound))
         ∧ (∀ p, (∀ i, (i < visual_in_count (model pol))%nat → p ≠ model_visual_in i) →
                 (∀ i, (i < next_visual_in_count (model pol))%nat →
                       p ≠ model_next_visual_in i) →
                 fd5 !! p = fd3 !! p)
       else fd5 = fd3)
    ∧ (if use_recurrent (base pol) then
         ∃ mem mem_in,
           mini_batch !! "memory"%string = Some mem
           ∧ first_timestep mem = Ok mem_in
           ∧ fd6 = <[model_memory_in := FArr mem_in]> fd5
       else fd6 = fd5)
    ∧ fd = <[model_dones_holder := FArr (flatten done_col)]> fd6.
Proof.
  intros Heq branches. unfold update_feed_dict in Heq. cbv zeta in Heq.
  apply rbind_inv in Heq as (masks & Hmasks%mb_get_inv & Heq).
  apply rbind_inv in Heq as (fd1 & Hrewards & Heq).
  apply rbind_inv in Heq as (fd2 & Hact & Heq).
  apply rbind_inv in Heq as (fd3 & Hvec & Heq).
  apply rbind_inv in Heq as (fd5 & Hvis & Heq).
  apply rbind_inv in Heq as (fd6 & Hmem & Heq).
  apply rbind_inv in Heq as (done_col & Hdone%mb_get_inv & Heq).
  injection Heq as <-.
  exists masks, done_col, fd1, fd2, fd3, fd5, fd6.
  split_and!; try done.
  - destruct (use_continuous_act (base pol)).
    + apply rbind_inv in Hact as (actions & Hactions%mb_get_inv & Hact).
      apply rbind_inv in Hact as (dim & Hdim%list_getitem_inv & Hact).
      apply rbind_inv in Hact as (a & Ha & Hact). injection Hact as <-.
      exists actions, a. split; [done|]. by exists dim.
    + apply rbind_inv in Hact as (actions & Hactions%mb_get_inv & Hact).
      apply rbind_inv in Hact as (a & Ha & Hact). cbv zeta in Hact.
      apply rbind_inv in Hact as (fd' & Hprev & Hact).
      apply rbind_inv in Hact as (mask & Hmask%mb_get_inv & Hact).
      apply rbind_inv in Hact as (m & Hm & Hact). injection Hact as <-.
      exists actions, a. split; [done|]. exists mask, m. split_and!; try done.
      destruct (use_recurrent (base pol)).
      * apply rbind_inv in Hprev as (prev & Hprev'%mb_get_inv & Hprev).
        apply rbind_inv in Hprev as (p & Hp & Hprev). injection Hprev as <-.
        by exists prev, p.
      * by injection Hprev as <-.
  - destruct (use_vec_obs (base pol)); [|by injection Hvec as <-].
    apply rbind_inv in Hvec as (obs & Hobs%mb_get_inv & Hvec).
    apply rbind_inv in Hvec as (v & Hv & Hvec). cbv zeta in Hvec.
    apply rbind_inv in Hvec as (next_obs & Hnext%mb_get_inv & Hvec).
    apply rbind_inv in Hvec as (nv & Hnv & Hvec). injection Hvec as <-.
    by exists obs, v, next_obs, nv.
  - destruct (0 <? vis_obs_size (model pol)); [|by injection Hvis as <-].
    apply rbind_inv in Hvis as (fd4 & Hcur & Hnext).
    unfold visual_in in Hcur. unfold next_visual_in in Hnext.
    pose proof (bind_visual_range _ _ _ _ _ _ _ _ Hcur) as Hcur_range.
    pose proof (bind_visual_range _ _ _ _ _ _ _ _ Hnext) as Hnext_range.
    apply bind_visual_inv in Hcur as [Hcur _]; [|by intros ? ? [= ->]].
    apply bind_visual_inv in Hnext as [Hnext _]; [|by intros ? ? [= ->]].
    split_and!.
    + intros i Hi. destruct (Hcur i Hi) as (obs & bound & ? & ? & Hfd4).
      exists obs, bound. split_and!; [done|done|].
      rewrite Hnext_range; [done|]. by intros.
    + intros i Hi. destruct (Hnext i Hi) as (obs & bound & ? & ? & ?).
      by exists obs, bound.
    + intros p Hp1 Hp2. rewrite Hnext_range, Hcur_range; [done| |].
      * intros i Hi. apply Hp1. lia.
      * intros i Hi. apply Hp2. lia.
  - destruct (use_recurrent (base pol)); [|by injection Hmem as <-].
    apply rbind_inv in Hmem as (mem & Hmem'%mb_get_inv & Hmem).
    apply rbind_inv in Hmem as (mem_in & Hin & Hmem). injection Hmem as <-.
    by exists mem, mem_in.
Qed.

Ltac lookups :=
  repeat first
    [ rewrite lookup_insert_eq
    | rewrite lookup_insert_ne by done
    | rewrite lookup_empty ].

(** X4: a feed dictionary that [update] built binds every input of the
    model exactly as [update_binding] describes, slot by slot: the sizes,
    the flattened masks and done flags, one reward column per registered
    signal in registry order, the actions reshaped by action-space kind, the
    previous actions and action masks for discrete actions only, the vector
    observations when in use, the visual streams the model declares, the
    first-timestep memory in recurrent mode; no stage overwrites another,
    and nothing else is bound. *)
Theorem update_feed_dict_bindings `{Engine} (pol : SACPolicy)
    (mini_batch : gmap string ndarray) (num_sequences : Z) (fd : feed_dict) :
  update_feed_dict pol mini_batch num_sequences = Ok fd →
  ∀ p, fd !! p = update_binding pol mini_batch num_sequences p.
Proof.
  intros Heq.
  destruct (update_feed_dict_stages pol mini_batch num_sequences fd Heq)
    as (masks & done_col & fd1 & fd2 & fd3 & fd5 & fd6 & Hmasks & Hdone & Hrewards
        & (actions & a & Hactions & Hact) & Hvec & Hvis & Hmem & ->).
  pose proof (bind_rewards_range _ _ _ _ _ _ Hrewards) as Hrw_range.
  apply bind_rewards_inv in Hrewards as [Hrw _].
  (* the reward slots *)
  assert (∀ j, fd1 !! model_rewards_holder j
               = name ← dict_keys (reward_signals pol) !! j;
                 column_flat mini_batch (rewards_key name)) as Hslots.
  { intros j. destruct (dict_keys (reward_signals pol) !! j) as [name|] eqn:Hname; simpl.
    - destruct (Hrw j name Hname) as (col & Hcol & Hfd). unfold column_flat.
      simpl in Hfd. by rewrite Hcol, Hfd.
    - rewrite Hrw_range; [by lookups|].
      intros k Hk [= ->]. apply lookup_ge_None in Hname. lia. }
  assert (∀ p, (∀ j, p ≠ model_rewards_holder j) →
               fd1 !! p = <[model_mask_input := FArr (flatten masks)]>
                            (<[model_sequence_length := FInt (sequence_length (base pol))]>
                               (<[model_batch_size := FInt num_sequences]>
                                  (∅ : feed_dict))) !! p)
    as Hother1.
  { intros p Hp. apply Hrw_range. intros k _. apply Hp. }
  (* the visual slots *)
  assert (∀ p, fd5 !! p
               = match p with
                 | model_visual_in i =>
                     if (0 <? vis_obs_size (model pol))
                        && (i <? visual_in_count (model pol))%nat
                     then _obs ← mini_batch !! visual_obs_key i;
                          FArr <$> result_to_option (visual_binding pol _obs)
                     else fd3 !! p
                 | model_next_visual_in i =>
                     if (0 <? vis_obs_size (model pol))
                        && (i <? next_visual_in_count (model pol))%nat
                     then _obs ← mini_batch !! next_visual_obs_key i;
                          FArr <$> result_to_option (visual_binding pol _obs)
                     else fd3 !! p
                 | _ => fd3 !! p
                 end) as Hfd5.
  { destruct (0 <? vis_obs_size (model pol)); simpl;
      [|subst fd5; by intros []].
    destruct Hvis as (Hcur & Hnext & Hother).
    intros p. destruct p; try (apply Hother; by intros).
    - destruct (i <? visual_in_count (model pol))%nat eqn:Hi.
      + apply Nat.ltb_lt in Hi. destruct (Hcur i Hi) as (obs & bound & Hobs & Hb & Hfd).
        rewrite Hobs. simpl. by rewrite Hb, Hfd.
      + apply Nat.ltb_ge in Hi. apply Hother; [|by intros].
        intros k Hk [= ->]. lia.
    - destruct (i <? next_visual_in_count (model pol))%nat eqn:Hi.
      + apply Nat.ltb_lt in Hi. destruct (Hnext i Hi) as (obs & bound & Hobs & Hb & Hfd).
        rewrite Hobs. simpl. by rewrite Hb, Hfd.
      + apply Nat.ltb_ge in Hi. apply Hother; [by intros|].
        intros k Hk [= ->]. lia. }
  clear Hvis Hrw Hrw_range.
  intros p. unfold update_binding, column_flat, column_reshaped.
  destruct (use_continuous_act (base pol)); simpl;
    [destruct Hact as (dim & Hdim & Ha & ->)
    |destruct Hact as (mask & m & Ha & Hmask & Hm & Hprev)];
    (destruct (use_vec_obs (base pol));
     [destruct Hvec as (obs & v & next_obs & nv & Hobs & Hv & Hnext_obs & Hnv & ->)
     |subst fd3]);
    (destruct (use_recurrent (base pol));
     [destruct Hmem as (mem & mem_in & Hmem & Hmem_in & ->)|subst fd6]);
    try (destruct Hprev as (prev & q & Hprev & Hq & ->));
    try subst fd2;
    (destruct p; lookups; rewrite ?Hfd5; lookups; simpl;
     try (destruct (_ && _); [done|]; lookups);
     rewrite ?Hslots, ?Hother1 by done; lookups;
     repeat match goal with
       | Heq : ?l = Some _ |- context [?l] => rewrite Heq; simpl
       | Heq : ?l = Ok _ |- context [?l] => rewrite Heq; simpl
       end;
     done).
Qed.

Lemma update_feed_dict_bindings_witness :
  Sample.update_feed !! model_action_masks = None
  ∧ Sample.update_feed !! model_memory_in = Some (FArr (np_zeros [2; 3]%nat)).
Proof.
  assert (update_feed_dict Sample.pol Sample.mini_batch 2 = Ok Sample.update_feed)
    as Hfeed by (vm_compute; reflexivity).
  split;
    rewrite (@update_feed_dict_bindings counting_engine _ _ _ _ Hfeed); reflexivity.
Defined.

(** ** The columns update needs *)

Lemma required_columns_present `{Engine} (pol : SACPolicy)
    (mini_batch : gmap string ndarray) (num_sequences : Z) (fd : feed_dict) :
  update_feed_dict pol mini_batch num_sequences = Ok fd →
  ∀ key, key ∈ required_columns pol → is_Some (mini_batch !! key).
Proof.
  intros Heq.
  destruct (update_feed_dict_stages pol mini_batch num_sequences fd Heq)
    as (masks & done_col & fd1 & fd2 & fd3 & fd5 & fd6 & Hmasks & Hdone & Hrewards
        & (actions & a & Hactions & Hact) & Hvec & Hvis & Hmem & _).
  apply bind_rewards_inv in Hrewards as [Hrw _].
  intros key. unfold required_columns. rewrite !elem_of_app.
  intros [Hin | [Hin | [Hin | [Hin | [Hin | [Hin | [Hin | Hin]]]]]]].
  - apply list_elem_of_singleton in Hin as ->. by eexists.
  - apply list_elem_of_fmap in Hin as (name & -> & Hname).
    apply list_elem_of_lookup in Hname as [j Hj].
    destruct (Hrw j name Hj) as (col & Hcol & _). by eexists.
  - apply list_elem_of_singleton in Hin as ->. by eexists.
  - destruct (use_continuous_act (base pol)); [by apply elem_of_nil in Hin|].
    destruct Hact as (mask & m & _ & Hmask & _ & Hprev).
    apply elem_of_app in Hin as [Hin | Hin].
    + destruct (use_recurrent (base pol)); [|by apply elem_of_nil in Hin].
      destruct Hprev as (prev & q & Hprev & _).
      apply list_elem_of_singleton in Hin as ->. by eexists.
    + apply list_elem_of_singleton in Hin as ->. by eexists.
  - destruct (use_vec_obs (base pol)); [|by apply elem_of_nil in Hin].
    destruct Hvec as (obs & v & next_obs & nv & Hobs & _ & Hnext & _).
    apply elem_of_cons in Hin as [-> | Hin]; [by eexists|].
    apply list_elem_of_singleton in Hin as ->. by eexists.
  - destruct (0 <? vis_obs_size (model pol)); [|by apply elem_of_nil in Hin].
    destruct Hvis as (Hcur & Hnext & _).
    apply elem_of_app in Hin as [Hin | Hin];
      apply list_elem_of_fmap in Hin as (i & -> & Hi);
      apply elem_of_seq in Hi as [_ Hi].
    + destruct (Hcur i Hi) as (obs & bound & Hobs & _). by eexists.
    + destruct (Hnext i Hi) as (obs & bound & Hobs & _). by eexists.
  - destruct (use_recurrent (base pol)); [|by apply elem_of_nil in Hin].
    destruct Hmem as (mem & mem_in & Hmem & _).
    apply list_elem_of_singleton in Hin as ->. by eexists.
  - apply list_elem_of_singleton in Hin as ->. by eexists.
Qed.

(** X5: [update] needs every column of [required_columns]: the masks, one
    reward column per registered signal, the actions, the previous actions
    and action mask of a discrete policy, the vector and visual
    observations with their next-step counterparts when in use, the memory
    of a recurrent policy and the done flags.  When one of them is missing
    [update] raises and the session is left as it was: nothing is run, and
    the target network is not synchronised either. *)
Theorem update_requires_columns `{Engine} (pol : SACPolicy)
    (mini_batch : gmap string ndarray) (key : string) :
  key ∈ required_columns pol →
  mini_batch !! key = None →
  ∀ num_sequences ut s, ∃ e, update pol mini_batch num_sequences ut s = (Raise e, s).
Proof.
  intros Hkey Hnone num_sequences ut s.
  destruct (update_feed_dict pol mini_batch num_sequences) as [fd|e] eqn:Heq.
  - destruct (required_columns_present pol mini_batch num_sequences fd Heq key Hkey)
      as [col Hcol].
    congruence.
  - exists e. by apply update_raises_without_feed_dict.
Qed.

Lemma update_requires_columns_witness :
  ∃ e, update Sample.pol (delete "done"%string Sample.mini_batch) 2 None
         (sess Sample.start)
       = (Raise e, sess Sample.start).
Proof.
  apply (@update_requires_columns counting_engine Sample.pol
           (delete "done"%string Sample.mini_batch) "done"%string).
  - apply (bool_decide_unpack _). vm_compute. reflexivity.
  - reflexivity.
Defined.

(** ** Shapes of the action and memory bindings *)

(** A successful [reshape(-1, d)] has a positive [d], keeps every element
    and yields rows of [d] elements. *)
Lemma reshape_rows_inv (a : ndarray) (d : Z) (r : ndarray) :
  reshape a [-1; d] = Ok r →
  0 < d ∧ data r = data a
  ∧ ∃ rows, shape r = [rows; Z.to_nat d]
            ∧ (rows * Z.to_nat d = size_of (shape a))%nat.
Proof.
  unfold reshape. simpl existsb.
  destruct (d <? -1) eqn:Hlow; [done|].
  change ((-1 <? -1) || (false || false)) with false. cbv iota.
  apply Z.ltb_ge in Hlow.
  rewrite (filter_cons_True (λ x, x = -1)) by done.
  rewrite (filter_cons_False (λ x, x ≠ -1)) by (intros Hne; by apply Hne).
  destruct (decide (d = -1)) as [-> | Hd].
  - rewrite (filter_cons_True (λ x, x = -1)) by done. simpl. done.
  - rewrite (filter_cons_False (λ x, x = -1)) by done.
    rewrite (filter_cons_True (λ x, x ≠ -1)) by done.
    rewrite !filter_nil. simpl length. cbv iota. simpl map.
    simpl size_of at 1 2 3.
    destruct (Z.to_nat d * 1 =? 0)%nat eqn:Hzero; simpl; [done|].
    apply Nat.eqb_neq in Hzero.
    destruct (size_of (shape a) mod (Z.to_nat d * 1) =? 0)%nat eqn:Hmod; simpl; [|done].
    apply Nat.eqb_eq in Hmod.
    assert ((d =? -1) = false) as -> by (apply Z.eqb_neq; lia).
    intros [= <-]. simpl. split_and!; [lia|done|].
    eexists. split; [done|].
    apply Nat.Div0.div_exact in Hmod.
    remember (size_of (shape a) `div` (Z.to_nat d * 1))%nat as q. lia.
Qed.

(** X6: in a feed dictionary that [update] built, the action holder is bound
    to the "actions" column rearranged, with all its elements in order, into
    rows of [act_size[0]] values for a continuous policy and of one value
    per action branch for a discrete one; the row width is positive, so
    [update] cannot build a feed dictionary for a model with an empty
    [act_size]. *)
Theorem update_binds_actions_as_rows `{Engine} (pol : SACPolicy)
    (mini_batch : gmap string ndarray) (num_sequences : Z) (fd : feed_dict) :
  update_feed_dict pol mini_batch num_sequences = Ok fd →
  ∃ actions a rows width,
    mini_batch !! "actions"%string = Some actions
    ∧ fd !! model_action_holder = Some (FArr a)
    ∧ data a = data actions
    ∧ shape a = [rows; width]
    ∧ (0 < width)%nat
    ∧ (rows * width = size_of (shape actions))%nat
    ∧ (if use_continuous_act (base pol)
       then act_size (model pol) !! 0%nat = Some (Z.of_nat width)
       else width = length (act_size (model pol)))
    ∧ act_size (model pol) ≠ [].
Proof.
  intros Heq.
  destruct (update_feed_dict_stages pol mini_batch num_sequences fd Heq)
    as (masks & done_col & fd1 & fd2 & fd3 & fd5 & fd6 & _ & _ & _
        & (actions & a & Hactions & Hact) & Hvec & Hvis & Hmem & ->).
  assert (fd6 !! model_action_holder = fd2 !! model_action_holder) as Hlater.
  { transitivity (fd5 !! model_action_holder).
    { destruct (use_recurrent (base pol)); [|by subst].
      destruct Hmem as (? & ? & _ & _ & ->). by lookups. }
    transitivity (fd3 !! model_action_holder).
    { destruct (0 <? vis_obs_size (model pol)); [|by subst].
      destruct Hvis as (_ & _ & Hother). by apply Hother. }
    destruct (use_vec_obs (base pol)); [|by subst].
    destruct Hvec as (? & ? & ? & ? & _ & _ & _ & _ & ->). by lookups. }
  assert (∃ d, reshape actions [-1; d] = Ok a
               ∧ fd2 !! model_action_holder = Some (FArr a)
               ∧ (if use_continuous_act (base pol)
                  then act_size (model pol) !! 0%nat = Some d
                  else d = Z.of_nat (length (act_size (model pol)))))
    as (d & Ha & Hfd2 & Hd).
  { destruct (use_continuous_act (base pol)).
    - destruct Hact as (dim & Hdim & Ha & ->). exists dim. by lookups.
    - destruct Hact as (mask & m & Ha & _ & _ & Hprev). eexists. split; [done|].
      split; [|done].
      destruct (use_recurrent (base pol)).
      + destruct Hprev as (? & ? & _ & _ & ->). by lookups.
      + subst fd2. by lookups. }
  apply reshape_rows_inv in Ha as (Hpos & Hdata & rows & Hshape & Hrows).
  exists actions, a, rows, (Z.to_nat d).
  split_and!; try done.
  - lookups. by rewrite Hlater.
  - lia.
  - destruct (use_continuous_act (base pol)).
    + by rewrite Z2Nat.id by lia.
    + subst d. by rewrite Nat2Z.id.
  - destruct (use_continuous_act (base pol)).
    + intros Hnil. by rewrite Hnil in Hd.
    + subst d. intros Hnil. rewrite Hnil in Hpos. simpl in Hpos. lia.
Qed.

Lemma update_binds_actions_as_rows_witness :
  ∃ a, Sample.update_feed !! model_action_holder = Some (FArr a)
       ∧ shape a = [4; 2]%nat.
Proof.
  destruct (@update_binds_actions_as_rows counting_engine Sample.pol Sample.mini_batch 2
              Sample.update_feed)
    as (actions & a & rows & width & _ & Hfd & _ & Hshape & _ & Hrows & Hwidth & _).
  - vm_compute. reflexivity.
  - exists a. split; [done|].
    vm_compute in Hfd. injection Hfd as <-. reflexivity.
Defined.

Lemma flat_map_length_chunks {A} (f : nat -> list A) (sz : nat) (l : list nat) :
  (∀ i, i ∈ l → length (f i) = sz) → length (flat_map f l) = (length l * sz)%nat.
Proof.
  induction l as [|i l IH]; intros Hlen; simpl; [done|].
  rewrite length_app, IH, Hlen; [lia|apply list_elem_of_here|].
  intros j Hj. apply Hlen. by apply list_elem_of_further.
Qed.

(** The [b]-th chunk of a concatenation of [B] chunks of equal length. *)
Lemma flat_map_chunk {A} (f : nat -> list A) (sz B b : nat) :
  (∀ i, (i < B)%nat → length (f i) = sz) → (b < B)%nat →
  take sz (drop (b * sz) (flat_map f (seq 0 B))) = f b.
Proof.
  intros Hlen Hb.
  replace B with (b + S (B - S b))%nat by lia.
  rewrite seq_app, flat_map_app. simpl.
  assert (length (flat_map f (seq 0 b)) = (b * sz)%nat) as Hpre.
  { rewrite (flat_map_length_chunks f sz), length_seq; [done|].
    intros i Hi. apply elem_of_seq in Hi. apply Hlen. lia. }
  rewrite <- Hpre, drop_app_length.
  rewrite <- (Hlen b Hb) at 1. by rewrite take_app_length.
Qed.

Lemma py_index_nat (n b : nat) : (b < n)%nat → py_index n (Z.of_nat b) = Some b.
Proof.
  intros Hb. unfold py_index.
  assert ((0 <=? Z.of_nat b) && (Z.of_nat b <? Z.of_nat n) = true) as ->.
  { apply andb_true_iff. split; [apply Z.leb_le|apply Z.ltb_lt]; lia. }
  by rewrite Nat2Z.id.
Qed.

(** [a[:, 0, :][b]] is [a[b][0]]. *)
Lemma first_timestep_rows (mem r : ndarray) :
  first_timestep mem = Ok r →
  ∃ B L tl,
    shape mem = B :: L :: tl ∧ tl ≠ [] ∧ (0 < L)%nat ∧ shape r = B :: tl
    ∧ (wf_ndarray mem →
       ∀ b, (b < B)%nat →
         np_getitem r (Z.of_nat b)
         = (seq_b <~ np_getitem mem (Z.of_nat b) ;; np_getitem seq_b 0)).
Proof.
  unfold first_timestep, wf_ndarray.
  destruct (shape mem) as [|B [|L [|d tl]]] eqn:Hshape; try done.
  destruct (L =? 0)%nat eqn:HL; [done|]. apply Nat.eqb_neq in HL.
  intros [= <-]. exists B, L, (d :: tl). split_and!; try done; [lia|].
  intros Hwf b Hb. unfold np_getitem at 1 2. rewrite Hshape. cbn [shape data].
  rewrite py_index_nat by done. cbn [rbind].
  unfold np_getitem. cbn [shape data].
  assert (py_index L 0 = Some 0%nat) as -> by (apply (py_index_nat L 0); lia).
  change (d * size_of tl)%nat with (size_of (d :: tl)) in *.
  change (size_of (L :: d :: tl)) with (L * size_of (d :: tl))%nat.
  change (size_of (B :: L :: d :: tl)) with (B * (L * size_of (d :: tl)))%nat in Hwf.
  remember (size_of (d :: tl)) as sz eqn:Hsz. f_equal. f_equal.
  rewrite flat_map_chunk; [|intros i Hi|done].
  - change (0 * sz)%nat with 0%nat. rewrite drop_0, take_take. f_equal. nia.
  - rewrite length_take, length_drop, Hwf.
    assert (sz ≤ L * sz)%nat by nia.
    assert ((i + 1) * (L * sz) ≤ B * (L * sz))%nat by (apply Nat.mul_le_mono_r; lia).
    lia.
Qed.

(** X7: for a recurrent policy, a feed dictionary that [update] built binds
    the memory input to the "memory" column restricted to the first
    timestep of every sequence: a column of shape (B, L, ...) with L at
    least 1 is bound with shape (B, ...), and, when the column holds as
    many elements as its shape says, row [b] of the bound array is
    [memory[b][0]]. *)
Theorem update_binds_first_timestep_memory `{Engine} (pol : SACPolicy)
    (mini_batch : gmap string ndarray) (num_sequences : Z) (fd : feed_dict) :
  update_feed_dict pol mini_batch num_sequences = Ok fd →
  use_recurrent (base pol) = true →
  ∃ mem mem_in B L tl,
    mini_batch !! "memory"%string = Some mem
    ∧ shape mem = B :: L :: tl ∧ tl ≠ [] ∧ (0 < L)%nat
    ∧ fd !! model_memory_in = Some (FArr mem_in)
    ∧ shape mem_in = B :: tl
    ∧ (wf_ndarray mem →
       ∀ b, (b < B)%nat →
         np_getitem mem_in (Z.of_nat b)
         = (seq_b <~ np_getitem mem (Z.of_nat b) ;; np_getitem seq_b 0)).
Proof.
  intros Heq Hrec.
  destruct (update_feed_dict_stages pol mini_batch num_sequences fd Heq)
    as (masks & done_col & fd1 & fd2 & fd3 & fd5 & fd6 & _ & _ & _ & _ & _ & _
        & Hmem & ->).
  rewrite Hrec in Hmem. destruct Hmem as (mem & mem_in & Hmem & Hfirst & ->).
  apply first_timestep_rows in Hfirst as (B & L & tl & ? & ? & ? & ? & ?).
  exists mem, mem_in, B, L, tl. split_and!; try done. by lookups.
Qed.

Lemma update_binds_first_timestep_memory_witness :
  ∃ mem_in, Sample.update_feed !! model_memory_in = Some (FArr mem_in)
            ∧ shape mem_in = [2; 3]%nat.
Proof.
  destruct (@update_binds_first_timestep_memory counting_engine Sample.pol
              Sample.mini_batch 2 Sample.update_feed)
    as (mem & mem_in & B & L & tl & Hmem & Hshape & _ & _ & Hfd & Hin & _).
  - vm_compute. reflexivity.
  - reflexivity.
  - exists mem_in. split; [done|].
    vm_compute in Hmem. injection Hmem as <-.
    injection Hshape as <- <- <-. done.
Defined.

(** ** Insertion-ordered dictionaries *)

Lemma dict_get_set {V} (d : odict V) (k k' : string) (v : V) :
  dict_get (dict_set d k v) k' = if String.eqb k k' then Some v else dict_get d k'.
Proof.
  induction d as [|[k0 v0] d IH]; simpl.
  - done.
  - destruct (String.eqb k0 k) eqn:Hk0; simpl.
    + apply String.eqb_eq in Hk0 as ->. by destruct (String.eqb k k').
    + rewrite IH. destruct (String.eqb k0 k') eqn:Hk0'; [|done].
      apply String.eqb_eq in Hk0' as ->. by rewrite String.eqb_sym, Hk0.
Qed.

Lemma dict_keys_set {V} (d : odict V) (k : string) (v : V) :
  dict_keys (dict_set d k v)
  = if bool_decide (k ∈ dict_keys d) then dict_keys d else dict_keys d ++ [k].
Proof.
  induction d as [|[k0 v0] d IH]; simpl; [done|].
  destruct (String.eqb k0 k) eqn:Hk0; simpl.
  - apply String.eqb_eq in Hk0 as ->.
    rewrite bool_decide_eq_true_2; [done|apply list_elem_of_here].
  - apply String.eqb_neq in Hk0. rewrite IH.
    destruct (bool_decide (k ∈ dict_keys d)) eqn:Hin.
    + apply bool_decide_eq_true_1 in Hin.
      rewrite bool_decide_eq_true_2; [done|by apply list_elem_of_further].
    + apply bool_decide_eq_false_1 in Hin.
      rewrite bool_decide_eq_false_2; [done|].
      intros [?|?]%elem_of_cons; [congruence|done].
Qed.

Lemma dict_keys_fold {V} (l : list (string * V)) (d : odict V) :
  NoDup (dict_keys d) →
  NoDup (dict_keys (fold_left (fun d kv => dict_set d (fst kv) (snd kv)) l d))
  ∧ ∀ k, k ∈ dict_keys (fold_left (fun d kv => dict_set d (fst kv) (snd kv)) l d)
         ↔ k ∈ dict_keys d ∨ k ∈ map fst l.
Proof.
  revert d. induction l as [|[k0 v0] l IH]; intros d Hnodup; simpl.
  - split; [done|]. intros k. split; [by left|]. intros [?|?%elem_of_nil]; done.
  - assert (NoDup (dict_keys (dict_set d k0 v0))) as Hnodup'.
    { rewrite dict_keys_set. case_bool_decide; [done|].
      apply NoDup_app. split_and!; [done| |apply NoDup_singleton].
      intros x Hx ->%list_elem_of_singleton. done. }
    destruct (IH _ Hnodup') as [IH1 IH2]. split; [done|].
    intros k. rewrite IH2, dict_keys_set.
    case_bool_decide; rewrite ?elem_of_app, ?list_elem_of_singleton, elem_of_cons;
      intuition (subst; tauto).
Qed.

Lemma dict_get_fold {V} (l : list (string * V)) (d : odict V) (k : string) :
  dict_get (fold_left (fun d kv => dict_set d (fst kv) (snd kv)) l d) k
  = match last (filter (λ kv, fst kv = k) l) with
    | Some kv => Some (snd kv)
    | None => dict_get d k
    end.
Proof.
  revert d. induction l as [|[k0 v0] l IH]; intros d; simpl; [done|].
  rewrite IH, filter_cons. simpl.
  destruct (decide (k0 = k)) as [-> | Hne].
  - destruct (filter (λ kv, fst kv = k) l) as [|kv m] eqn:Hfilter; simpl.
    + by rewrite dict_get_set, String.eqb_refl.
    + destruct (last (kv :: m)) eqn:Hlast; [done|].
      by apply last_None in Hlast.
  - destruct (last (filter (λ kv, fst kv = k) l)); [done|].
    rewrite dict_get_set. apply String.eqb_neq in Hne. by rewrite Hne.
Qed.

Lemma dict_get_is_Some {V} (d : odict V) (k : string) :
  is_Some (dict_get d k) ↔ k ∈ dict_keys d.
Proof.
  split.
  - intros [v Hv]. by eapply dict_get_in_keys.
  - induction d as [|[k0 v0] d IH]; simpl; [by intros ?%elem_of_nil|].
    destruct (String.eqb k0 k) eqn:Hk0; [by eexists|].
    apply String.eqb_neq in Hk0.
    intros [?|?]%elem_of_cons; [congruence|by apply IH].
Qed.

Lemma map_fst_combine {A B} (l : list A) (k : list B) :
  map fst (combine l k) = take (length k) l.
Proof.
  revert k. induction l as [|a l IH]; intros [|b k]; simpl; try done.
  by rewrite IH.
Qed.

(** ** The strength mapping and the registry *)

Lemma stream_names_configured (trainer_params : TrainerParams) :
  NoDup (dict_keys (reward_strengths_of trainer_params))
  ∧ ∀ name, name ∈ dict_keys (reward_strengths_of trainer_params)
            ↔ name ∈ configured_signals trainer_params.
Proof.
  unfold reward_strengths_of, dict_of_zip, configured_signals.
  destruct (dict_keys_fold
              (combine (cfg_reward_signals trainer_params)
                       (cfg_reward_strength trainer_params)) []) as [Hnodup Hkeys].
  { apply NoDup_nil_2. }
  split; [done|]. intros name. rewrite Hkeys, map_fst_combine. simpl.
  split; [|by right]. intros [?%elem_of_nil|?]; done.
Qed.

(** X2: the model gets one stream name, hence one reward slot, for every
    distinct signal name the configuration pairs with a strength,
    recognised or not; the registry holds exactly the recognised ones among
    them, each once, in the fixed order extrinsic, curiosity, gail, entropy
    whatever the order of the configuration. *)
Theorem registry_holds_recognised_names_in_fixed_order (self : Policy)
    (brain : BrainParameters) (trainer_params : TrainerParams)
    (is_training load : bool) :
  let pol := new_SACPolicy self brain trainer_params is_training load in
  dict_keys (reward_signals pol)
  = filter (λ name, name ∈ configured_signals trainer_params) recognised_signals
  ∧ NoDup (stream_names (model pol))
  ∧ (∀ name, name ∈ stream_names (model pol)
             ↔ name ∈ configured_signals trainer_params)
  ∧ length (rewards_holders (model pol)) = length (stream_names (model pol)).
Proof.
  simpl. destruct (stream_names_configured trainer_params) as [Hnodup Hkeys].
  split_and!; [|done|done|].
  - assert (∀ name, is_Some (dict_get (reward_strengths_of trainer_params) name)
                    ↔ name ∈ configured_signals trainer_params) as Hsome.
    { intros name. by rewrite dict_get_is_Some. }
    unfold registry_of, registry_add, recognised_signals.
    pose proof (Hsome "extrinsic"%string) as He.
    pose proof (Hsome "curiosity"%string) as Hc.
    pose proof (Hsome "gail"%string) as Hg.
    pose proof (Hsome "entropy"%string) as Hn.
    rewrite !filter_cons, filter_nil.
    destruct (dict_get (reward_strengths_of trainer_params) "extrinsic");
      destruct (dict_get (reward_strengths_of trainer_params) "curiosity");
      destruct (dict_get (reward_strengths_of trainer_params) "gail");
      destruct (dict_get (reward_strengths_of trainer_params) "entropy");
      simpl;
      repeat case_decide;
      try done;
      repeat match goal with
        | Hiff : is_Some (Some _) ↔ _, Hnot : ¬ _ |- _ =>
            exfalso; apply Hnot, Hiff; by eexists
        | Hiff : is_Some None ↔ _, Hin : _ ∈ _ |- _ =>
            apply Hiff in Hin; by destruct Hin
        end.
  - unfold rewards_holders. by rewrite length_fmap, length_seq.
Qed.

Lemma reward_strengths_get (trainer_params : TrainerParams) (name : string) :
  dict_get (reward_strengths_of trainer_params) name
  = configured_strength trainer_params name.
Proof.
  unfold reward_strengths_of, dict_of_zip, configured_strength.
  rewrite dict_get_fold. by destruct (last _).
Qed.

Lemma registry_keys_recognised (trainer_params : TrainerParams) (name : string) :
  name ∈ dict_keys (registry_of trainer_params) → name ∈ recognised_signals.
Proof.
  unfold registry_of, registry_add, recognised_signals.
  destruct (dict_get (reward_strengths_of trainer_params) "extrinsic");
    destruct (dict_get (reward_strengths_of trainer_params) "curiosity");
    destruct (dict_get (reward_strengths_of trainer_params) "gail");
    destruct (dict_get (reward_strengths_of trainer_params) "entropy");
    simpl; intros Hin;
    repeat (apply elem_of_cons in Hin as [-> | Hin];
            [apply (bool_decide_unpack _); reflexivity|]);
    by apply elem_of_nil in Hin.
Qed.

(** X3: the registry maps each recognised name that is configured to the
    signal of that kind, built with the strength paired with the last
    occurrence of the name in the configuration (and, for curiosity and
    gail, with the configured encoding size, hidden units, learning rate and
    demonstration path); it has no entry under any other name. *)
Theorem registry_uses_last_configured_strength (trainer_params : TrainerParams) :
  let registry := registry_of trainer_params in
  let strength := configured_strength trainer_params in
  dict_get registry "extrinsic" = ExtrinsicSignal <$> strength "extrinsic"%string
  ∧ dict_get registry "curiosity"
    = (λ s, CuriositySignal s (cfg_curiosity_enc_size trainer_params))
        <$> strength "curiosity"%string
  ∧ dict_get registry "gail"
    = GAILSignal (cfg_hidden_units trainer_params) (cfg_learning_rate trainer_params)
        (cfg_demo_path trainer_params) <$> strength "gail"%string
  ∧ dict_get registry "entropy" = EntropySignal <$> strength "entropy"%string
  ∧ ∀ name, name ∉ recognised_signals → dict_get registry name = None.
Proof.
  cbv zeta. split_and!.
  1-4: unfold registry_of, registry_add; rewrite !reward_strengths_get;
    destruct (configured_strength trainer_params "extrinsic");
    destruct (configured_strength trainer_params "curiosity");
    destruct (configured_strength trainer_params "gail");
    destruct (configured_strength trainer_params "entropy");
    reflexivity.
  intros name Hname.
  destruct (dict_get (registry_of trainer_params) name) as [signal|] eqn:Hget; [|done].
  exfalso. apply Hname. eapply registry_keys_recognised, dict_get_in_keys, Hget.
Qed.

(** ** Reward columns and the outcome of update *)

(** [update] returns exactly when its feed dictionary could be built. *)
Lemma update_ok_feed_dict `{Engine} (pol : SACPolicy) (mini_batch : gmap string ndarray)
    (num_sequences : Z) (ut : option bool) (s : session) :
  is_ok (fst (update pol mini_batch num_sequences ut s))
  = is_ok (update_feed_dict pol mini_batch num_sequences).
Proof.
  unfold update, bind, lift.
  destruct (update_feed_dict pol mini_batch num_sequences) as [fd|e]; [|done].
  unfold _execute_model, sess_run, sess_run1, bind, ret.
  destruct (graph_run _ fd _) as [vals g1]. simpl.
  by destruct (default true ut).
Qed.

(** [update] is a function of the feed dictionary it builds. *)
Lemma update_same_feed_dict `{Engine} (pol : SACPolicy)
    (mini_batch other : gmap string ndarray) (num_sequences : Z) (ut : option bool)
    (s : session) :
  update_feed_dict pol other num_sequences = update_feed_dict pol mini_batch num_sequences →
  update pol other num_sequences ut s = update pol mini_batch num_sequences ut s.
Proof. unfold update, bind, lift. by intros ->. Qed.

Lemma mb_get_ext `{Engine} (mini_batch other : gmap string ndarray) (key : string) :
  other !! key = mini_batch !! key → mb_get other key = mb_get mini_batch key.
Proof. unfold mb_get. by intros ->. Qed.

Lemma bind_rewards_ext `{Engine} (pol : SACPolicy) (mini_batch other : gmap string ndarray)
    (names : list string) :
  (∀ name, name ∈ names → other !! rewards_key name = mini_batch !! rewards_key name) →
  ∀ (i : nat) (fd : feed_dict),
    bind_rewards pol other i names fd = bind_rewards pol mini_batch i names fd.
Proof.
  induction names as [|name names IH]; intros Hsame i fd; simpl; [done|].
  rewrite (mb_get_ext mini_batch other) by (apply Hsame, list_elem_of_here).
  destruct (mb_get mini_batch (rewards_key name)); simpl; [|done].
  destruct (list_getitem (rewards_holders (model pol)) i); simpl; [|done].
  apply IH. intros name' Hin. by apply Hsame, list_elem_of_further.
Qed.

Lemma bind_visual_ext `{Engine} (pol : SACPolicy) (mini_batch other : gmap string ndarray)
    (column : nat → string) (holders : list placeholder) :
  ∀ (i : nat) (fd : feed_dict),
    (∀ j, (i ≤ j < i + length holders)%nat → other !! column j = mini_batch !! column j) →
    bind_visual pol other column i holders fd
    = bind_visual pol mini_batch column i holders fd.
Proof.
  induction holders as [|holder holders IH]; intros i fd Hsame; simpl in *; [done|].
  rewrite (mb_get_ext mini_batch other) by (apply Hsame; lia).
  destruct (mb_get mini_batch (column i)) as [obs|]; simpl; [|done].
  destruct (visual_binding pol obs); simpl; [|done].
  apply IH. intros j Hj. apply Hsame. lia.
Qed.

(** Whether a visual loop goes through does not depend on the dictionary it
    extends. *)
Lemma bind_visual_ok_any `{Engine} (pol : SACPolicy) (mini_batch : gmap string ndarray)
    (column : nat → string) (holders : list placeholder) :
  ∀ (i : nat) (fd fd' : feed_dict),
    is_ok (bind_visual pol mini_batch column i holders fd)
    = is_ok (bind_visual pol mini_batch column i holders fd').
Proof.
  induction holders as [|holder holders IH]; intros i fd fd'; simpl; [done|].
  destruct (mb_get mini_batch (column i)) as [obs|]; simpl; [|done].
  destruct (visual_binding pol obs); simpl; [|done].
  apply IH.
Qed.

Lemma rbind_ext {A B} (r : result A) (k k' : A → result B) :
  (∀ a, k a = k' a) → rbind r k = rbind r k'.
Proof. intros Hk. destruct r as [a|e]; simpl; [apply Hk|done]. Qed.

Lemma rbind_ok_eq {A B C} (r : result A) (k : A → result B) (k' : A → result C) :
  (∀ a, is_ok (k a) = is_ok (k' a)) → is_ok (rbind r k) = is_ok (rbind r k').
Proof. intros Hk. destruct r as [a|e]; simpl; [apply Hk|done]. Qed.

Lemma rbind_ok_any {A A' B C} (r : result A) (r' : result A') (k : A → result B)
    (k' : A' → result C) :
  is_ok r = is_ok r' →
  (∀ a a', is_ok (k a) = is_ok (k' a')) →
  is_ok (rbind r k) = is_ok (rbind r' k').
Proof. intros Hr Hk. destruct r as [a|e], r' as [a'|e']; simpl in *; done. Qed.

Ltac cols :=
  first
    [ assumption
    | apply list_elem_of_here
    | apply list_elem_of_fmap_2; cols
    | apply elem_of_seq; lia
    | apply list_elem_of_further; cols
    | apply elem_of_app; left; cols
    | apply elem_of_app; right; cols ].

(** The columns [update] reads are all it takes from the minibatch. *)
Lemma update_feed_dict_ext `{Engine} (pol : SACPolicy)
    (mini_batch other : gmap string ndarray) (num_sequences : Z) :
  (∀ key, key ∈ required_columns pol → other !! key = mini_batch !! key) →
  update_feed_dict pol other num_sequences = update_feed_dict pol mini_batch num_sequences.
Proof.
  intros Hsame.
  assert (∀ key, key ∈ required_columns pol → mb_get other key = mb_get mini_batch key)
    as Hget.
  { intros key Hkey. by apply mb_get_ext, Hsame. }
  unfold required_columns in Hsame, Hget.
  unfold update_feed_dict, visual_in, next_visual_in. cbv zeta.
  rewrite (Hget "masks"%string) by cols.
  apply rbind_ext; intros masks.
  rewrite (bind_rewards_ext pol mini_batch other) by (intros name Hname; apply Hsame; cols).
  destruct (use_continuous_act (base pol)), (use_recurrent (base pol)),
    (use_vec_obs (base pol)), (0 <? vis_obs_size (model pol));
    repeat (rewrite Hget by cols);
    try reflexivity;
    do 3 (apply rbind_ext; intros ?);
    rewrite (bind_visual_ext pol mini_batch other)
      by (intros j Hj; rewrite length_fmap, length_seq in Hj; apply Hsame; cols);
    (apply (f_equal (λ r, rbind r _)), rbind_ext; intros ?);
    rewrite (bind_visual_ext pol mini_batch other)
      by (intros j Hj; rewrite length_fmap, length_seq in Hj; apply Hsame; cols);
    reflexivity.
Qed.

(** Whether a feed dictionary can be built depends on the reward columns
    only through the reward loop: two minibatches with the same other
    columns, on which the reward loop fares alike, fare alike. *)
Lemma update_feed_dict_ok_frame `{Engine} (pol : SACPolicy)
    (mini_batch other : gmap string ndarray) (num_sequences : Z) :
  (∀ key, key ∈ ["masks"; "actions"; "prev_action"; "action_mask"; "vector_obs";
                 "next_vector_in"; "memory"; "done"]%string →
          other !! key = mini_batch !! key) →
  (∀ i, other !! visual_obs_key i = mini_batch !! visual_obs_key i) →
  (∀ i, other !! next_visual_obs_key i = mini_batch !! next_visual_obs_key i) →
  (∀ fd fd', is_ok (bind_rewards pol other 0 (dict_keys (reward_signals pol)) fd)
             = is_ok (bind_rewards pol mini_batch 0 (dict_keys (reward_signals pol)) fd')) →
  is_ok (update_feed_dict pol other num_sequences)
  = is_ok (update_feed_dict pol mini_batch num_sequences).
Proof.
  intros Hfixed Hvis Hnext Hrewards.
  unfold update_feed_dict. cbv zeta.
  repeat (rewrite (mb_get_ext mini_batch other) by (apply Hfixed; cols)).
  apply rbind_ok_eq; intros masks.
  apply rbind_ok_any; [apply Hrewards|intros fd fd'].
  repeat first
    [ reflexivity
    | apply rbind_ok_eq; intros ?
    | apply rbind_ok_any; [|intros ? ?]
    | match goal with
      | |- is_ok (if ?b then _ else _) = is_ok (if ?b then _ else _) => destruct b
      | |- is_ok (bind_visual _ other _ _ _ _) = _ =>
          rewrite (bind_visual_ext pol mini_batch other) by (intros; first [apply Hvis|apply Hnext]);
          apply bind_visual_ok_any
      end ].
Qed.

(** No column that [update] reads besides the reward columns bears the
    name of a reward column of a recognised signal. *)
Lemma reward_keys_apart (names : list string) (key : string) :
  (∀ name, name ∈ names → name ∈ recognised_signals) →
  key ∈ (rewards_key <$> names) →
  (key ∉ ["masks"; "actions"; "prev_action"; "action_mask"; "vector_obs";
          "next_vector_in"; "memory"; "done"]%string)
  ∧ (∀ i, key ≠ visual_obs_key i) ∧ (∀ i, key ≠ next_visual_obs_key i).
Proof.
  intros Hrec Hkey.
  apply list_elem_of_fmap in Hkey as (name & -> & Hname).
  apply Hrec in Hname. unfold recognised_signals in Hname.
  repeat (apply elem_of_cons in Hname as [-> | Hname];
          [split_and!;
           [ intros Hin;
             repeat (apply elem_of_cons in Hin as [Hin | Hin]; [discriminate|]);
             by apply elem_of_nil in Hin
           | intros i; discriminate
           | intros i; discriminate ]|]).
  by apply elem_of_nil in Hname.
Qed.

(** C2: for a policy as the constructor builds it, [update] returns only
    if the minibatch has a column [name_rewards] for every registered name;
    when one is missing it raises and the session is left as it was, nothing
    having been run.  The reward columns are all that [update] asks of the
    registry's names: a minibatch that differs only in its reward columns
    from one on which [update] returns is accepted exactly when it has a
    column for every registered name.  Columns beyond those of a minibatch
    on which [update] returns change nothing: the call does what it did
    without them. *)
Theorem reward_columns_required `{Engine} (self : Policy) (brain : BrainParameters)
    (trainer_params : TrainerParams) (is_training load : bool)
    (mini_batch : gmap string ndarray) :
  let pol := new_SACPolicy self brain trainer_params is_training load in
  let names := dict_keys (reward_signals pol) in
  (∀ num_sequences ut s,
     is_ok (fst (update pol mini_batch num_sequences ut s)) = true →
     ∀ name, In name names → is_Some (mini_batch !! rewards_key name))
  ∧ (∀ name, In name names → mini_batch !! rewards_key name = None →
       ∀ num_sequences ut s,
         ∃ e, update pol mini_batch num_sequences ut s = (Raise e, s))
  ∧ (∀ accepted num_sequences ut s,
       is_ok (fst (update pol accepted num_sequences ut s)) = true →
       (∀ key, key ∉ (rewards_key <$> names) → mini_batch !! key = accepted !! key) →
       (is_ok (fst (update pol mini_batch num_sequences ut s)) = true
        ↔ ∀ name, In name names → is_Some (mini_batch !! rewards_key name)))
  ∧ (∀ larger num_sequences ut s,
       mini_batch ⊆ larger →
       is_ok (fst (update pol mini_batch num_sequences ut s)) = true →
       update pol larger num_sequences ut s = update pol mini_batch num_sequences ut s).
Proof.
  intros pol names.
  pose proof (registry_fits_reward_slots self brain trainer_params is_training load)
    as Hfits.
  assert (∀ mb num_sequences ut s,
            is_ok (fst (update pol mb num_sequences ut s)) = true →
            ∀ key, key ∈ required_columns pol → is_Some (mb !! key)) as Hneeds.
  { intros mb num_sequences ut s. rewrite update_ok_feed_dict.
    destruct (update_feed_dict pol mb num_sequences) as [fd|e] eqn:Hfd; [|done].
    intros _. by apply (required_columns_present pol mb num_sequences fd). }
  assert (∀ mb num_sequences ut s,
            is_ok (fst (update pol mb num_sequences ut s)) = true →
            ∀ name, In name names → is_Some (mb !! rewards_key name)) as Hnec.
  { intros mb num_sequences ut s Hok name Hname.
    apply (Hneeds mb num_sequences ut s Hok).
    apply list_elem_of_In in Hname. unfold required_columns. cols. }
  split_and!.
  - apply Hnec.
  - intros name Hname Hnone num_sequences ut s.
    destruct (update_feed_dict pol mini_batch num_sequences) as [fd|e] eqn:Hfd.
    + assert (is_ok (fst (update pol mini_batch num_sequences ut s)) = true) as Hok.
      { by rewrite update_ok_feed_dict, Hfd. }
      destruct (Hnec _ _ _ _ Hok name Hname) as [col Hcol]. congruence.
    + exists e. by apply update_raises_without_feed_dict.
  - intros accepted num_sequences ut s Hacc Hsame. split; [apply Hnec|].
    intros Hall.
    rewrite update_ok_feed_dict in Hacc |- *. rewrite <- Hacc.
    apply update_feed_dict_ok_frame.
    + intros key Hkey. apply Hsame. intros Hrk.
      eapply reward_keys_apart in Hrk as (Hfixed & _); [by apply Hfixed|].
      intros name. apply registry_keys_recognised.
    + intros i. apply Hsame. intros Hrk.
      eapply reward_keys_apart in Hrk as (_ & Hvis & _); [by apply (Hvis i)|].
      intros name. apply registry_keys_recognised.
    + intros i. apply Hsame. intros Hrk.
      eapply reward_keys_apart in Hrk as (_ & _ & Hnext); [by apply (Hnext i)|].
      intros name. apply registry_keys_recognised.
    + intros fd fd'.
      assert (∀ mb fd0, (∀ name, In name names → is_Some (mb !! rewards_key name)) →
                        is_ok (bind_rewards pol mb 0 (dict_keys (reward_signals pol)) fd0) = true)
        as Hbind.
      { intros mb fd0 Hmb. by apply bind_rewards_ok. }
      rewrite (Hbind mini_batch fd Hall).
      rewrite (Hbind accepted fd'); [done|].
      apply (Hnec accepted num_sequences ut s). by rewrite update_ok_feed_dict.
  - intros larger num_sequences ut s Hsub Hok.
    apply update_same_feed_dict, update_feed_dict_ext.
    intros key Hkey.
    destruct (Hneeds _ _ _ _ Hok key Hkey) as [col Hcol].
    rewrite Hcol. by apply (lookup_weaken mini_batch larger).
Qed.

Lemma reward_columns_required_witness :
  is_ok (fst (update Sample.pol
                (<["extrinsic_rewards"%string := Sample.zeros [4]]> Sample.mini_batch)
                2 None (sess Sample.start))) = true
  ∧ (∃ e, update Sample.pol (delete "extrinsic_rewards"%string Sample.mini_batch)
            2 None (sess Sample.start)
          = (Raise e, sess Sample.start))
  ∧ update Sample.pol (<["episode_id"%string := Sample.zeros [4]]> Sample.mini_batch)
      2 None (sess Sample.start)
    = update Sample.pol Sample.mini_batch 2 None (sess Sample.start).
Proof.
  split_and!.
  - destruct (@reward_columns_required counting_engine Sample.self Sample.brain_params
                Sample.config true false
                (<["extrinsic_rewards"%string := Sample.zeros [4]]> Sample.mini_batch))
      as (_ & _ & Hiff & _).
    apply (Hiff Sample.mini_batch 2 None (sess Sample.start)).
    + reflexivity.
    + intros key Hkey. apply lookup_insert_ne. intros <-. apply Hkey.
      apply (bool_decide_unpack _). vm_compute. reflexivity.
    + intros name [<- | [<- | []]]; eexists; reflexivity.
  - apply (proj1 (proj2 (@reward_columns_required counting_engine Sample.self
                           Sample.brain_params Sample.config true false
                           (delete "extrinsic_rewards"%string Sample.mini_batch)))
             "extrinsic"%string).
    + left. reflexivity.
    + reflexivity.
  - apply (proj2 (proj2 (proj2 (@reward_columns_required counting_engine Sample.self
                                  Sample.brain_params Sample.config true false
                                  Sample.mini_batch)))).
    + apply insert_subseteq. reflexivity.
    + reflexivity.
Defined.

(** ** The recurrent bindings of evaluate and get_value_estimates *)

Lemma seed_empty_memory_inv `{Engine} (pol : SACPolicy) (w w' : world) (u : unit) :
  seed_empty_memory pol w = (Ok u, w') →
  w' = World _ (seeded pol (brain_info w)) (sess w).
Proof.
  rewrite seed_empty_memory_spec.
  destruct (shape_at (memories (brain_info w)) 1); [|done]. by intros [= _ <-].
Qed.

Lemma evaluate_feed_dict_prev_action `{Engine} (pol : SACPolicy) (w w' : world)
    (fd : feed_dict) :
  evaluate_feed_dict pol w = (Ok fd, w') →
  (if use_recurrent (base pol) && negb (use_continuous_act (base pol))
   then ∃ prev, reshape (previous_vector_actions (brain_info w))
                  [-1; Z.of_nat (length (act_size (model pol)))] = Ok prev
                ∧ fd !! model_prev_action = Some (FArr prev)
   else fd !! model_prev_action = None)
  ∧ (use_recurrent (base pol) = false → fd !! model_memory_in = None ∧ w' = w).
Proof.
  intros Heq. unfold evaluate_feed_dict in Heq.
  apply bind_inv in Heq as (bi & w0 & Hbi & Heq).
  unfold get_brain_info in Hbi. injection Hbi as <- <-.
  apply bind_inv in Heq as (n & w1 & Hn & Heq).
  unfold lift in Hn. injection Hn as Hn <-. cbv zeta in Heq.
  apply bind_inv in Heq as (fd2 & w2 & Hrec & Heq).
  apply bind_inv in Heq as (bi2 & w3 & Hbi2 & Heq).
  unfold get_brain_info in Hbi2. injection Hbi2 as <- <-.
  unfold ret in Heq. injection Heq as <- <-.
  rewrite !fill_eval_dict_lookup_other by done.
  destruct (use_recurrent (base pol)); simpl.
  - split; [|done].
    apply bind_inv in Hrec as (fd1 & w1 & Hprev & Hrec).
    apply bind_inv in Hrec as (u & w1' & Hseed & Hrec).
    apply bind_inv in Hrec as (bi1 & w1'' & Hbi1 & Hrec).
    unfold ret in Hrec. injection Hrec as <- <-. lookups.
    destruct (use_continuous_act (base pol)); simpl.
    + unfold ret in Hprev. injection Hprev as <- <-. by lookups.
    + apply bind_inv in Hprev as (prev & w1''' & Hreshape & Hprev).
      unfold lift in Hreshape. injection Hreshape as Hreshape <-.
      unfold ret in Hprev. injection Hprev as <- <-.
      exists prev. split; [done|]. by lookups.
  - unfold ret in Hrec. injection Hrec as <- <-. split; [by lookups|].
    intros _. by lookups.
Qed.

(** X8: when [evaluate] returns, its feed dictionary binds the previous
    actions exactly for a recurrent policy with discrete actions, to the
    batch's previous actions rearranged, all elements in order, into rows of
    one value per action branch; a policy that is not recurrent binds
    neither previous actions nor memory and leaves the caller's batch as it
    was. *)
Theorem evaluate_binds_previous_actions `{Engine} (pol : SACPolicy) (w : world) :
  is_ok (fst (evaluate pol w)) = true →
  let bi := brain_info w in
  let branches := length (act_size (model pol)) in
  (if use_recurrent (base pol) && negb (use_continuous_act (base pol))
   then ∃ prev rows,
          eval_feed pol w !! model_prev_action = Some (FArr prev)
          ∧ data prev = data (previous_vector_actions bi)
          ∧ shape prev = [rows; branches]
          ∧ (0 < branches)%nat
          ∧ (rows * branches = size_of (shape (previous_vector_actions bi)))%nat
   else eval_feed pol w !! model_prev_action = None)
  ∧ (use_recurrent (base pol) = false →
     eval_feed pol w !! model_memory_in = None
     ∧ brain_info (snd (evaluate pol w)) = bi).
Proof.
  intros Hok bi branches. unfold eval_feed.
  apply evaluate_ok in Hok as (fd & w1 & Hfd & Hbi & ->).
  pose proof (evaluate_feed_dict_inv _ _ _ _ Hfd) as (n & _ & _ & _ & Hsess & Hrecur).
  apply evaluate_feed_dict_prev_action in Hfd as [Hprev Hnone].
  split.
  - destruct (use_recurrent (base pol) && negb (use_continuous_act (base pol)))
      eqn:Hgate; [|done].
    destruct Hprev as (prev & Hre & Hprev).
    apply reshape_rows_inv in Hre as (Hpos & Hdata & rows & Hshape & Hrows).
    rewrite Nat2Z.id in Hshape, Hrows.
    exists prev, rows. split_and!; try done. subst branches. lia.
  - intros Hrec. destruct (Hnone Hrec) as [Hmem ->]. by rewrite Hbi.
Qed.

Lemma evaluate_binds_previous_actions_witness :
  ∃ prev, eval_feed DiscreteSample.pol DiscreteSample.start !! model_prev_action
          = Some (FArr prev)
          ∧ shape prev = [2; 2]%nat.
Proof.
  destruct (@evaluate_binds_previous_actions counting_engine DiscreteSample.pol
              DiscreteSample.start eq_refl) as [Hprev _].
  simpl in Hprev. destruct Hprev as (prev & rows & Hfd & _ & Hshape & _ & Hrows).
  exists prev. split; [done|].
  vm_compute in Hfd. injection Hfd as <-. reflexivity.
Defined.

Lemma seeded_previous_vector_actions (pol : SACPolicy) (bi : BrainInfo) :
  previous_vector_actions (seeded pol bi) = previous_vector_actions bi.
Proof. unfold seeded. by destruct (shape_at (memories bi) 1) as [[|?]|?]. Qed.

Lemma gve_feed_dict_prev_action `{Engine} (pol : SACPolicy) (idx : Z) (w w' : world)
    (fd : feed_dict) :
  gve_feed_dict pol idx w = (Ok fd, w') →
  if negb (use_continuous_act (base pol)) && use_recurrent (base pol)
  then ∃ row prev,
         np_getitem (previous_vector_actions (brain_info w)) idx = Ok row
         ∧ reshape row [-1; Z.of_nat (length (act_size (model pol)))] = Ok prev
         ∧ fd !! model_prev_action = Some (FArr prev)
  else fd !! model_prev_action = None.
Proof.
  intros Heq. unfold gve_feed_dict in Heq.
  apply bind_inv in Heq as (bi & w0 & Hbi & Heq).
  unfold get_brain_info in Hbi. injection Hbi as <- <-.
  apply bind_inv in Heq as (fd1 & w1 & Hvis & Heq).
  unfold lift in Hvis. injection Hvis as Hvis <-.
  apply bind_inv in Heq as (fd2 & w2 & Hvec & Heq).
  apply bind_inv in Heq as (fd3 & w3 & Hmem & Heq).
  apply gve_visual_inv in Hvis as [_ Hother1].
  assert (fd2 !! model_prev_action = None) as Hfd2.
  { destruct (use_vec_obs (base pol)); minv; lookups;
      rewrite Hother1 by done; by lookups. }
  assert (fd3 !! model_prev_action = None
          ∧ (use_recurrent (base pol) = true →
             brain_info w3 = seeded pol (brain_info w))) as [Hfd3 Hw3].
  { destruct (use_recurrent (base pol)).
    - apply bind_inv in Hmem as (u & w2' & Hseed & Hmem).
      assert (w2 = w) as -> by (destruct (use_vec_obs (base pol)); minv; done).
      apply seed_empty_memory_inv in Hseed as ->. minv. simpl. split; [by lookups|done].
    - minv. done. }
  destruct (negb (use_continuous_act (base pol))) eqn:Hdisc; simpl in *.
  - destruct (use_recurrent (base pol)) eqn:Hrec.
    + apply bind_inv in Heq as (bi3 & w3' & Hbi3 & Heq).
      unfold get_brain_info in Hbi3. injection Hbi3 as <- <-.
      apply bind_inv in Heq as (row & w4 & Hrow & Heq).
      unfold lift in Hrow. injection Hrow as Hrow <-.
      apply bind_inv in Heq as (prev & w5 & Hprev & Heq).
      unfold lift in Hprev. injection Hprev as Hprev <-.
      unfold ret in Heq. injection Heq as <- <-.
      rewrite (Hw3 eq_refl), seeded_previous_vector_actions in Hrow.
      exists row, prev. split_and!; [done|done|by lookups].
    + unfold ret in Heq. by injection Heq as <- <-.
  - unfold ret in Heq. by injection Heq as <- <-.
Qed.

(** X9: when [get_value_estimates] returns, its feed dictionary binds the
    previous actions exactly for a recurrent policy with discrete actions,
    to the requested agent's previous actions rearranged, all elements in
    order, into rows of one value per action branch. *)
Theorem get_value_estimates_binds_previous_actions `{Engine} (pol : SACPolicy)
    (idx : Z) (w : world) :
  is_ok (fst (get_value_estimates pol idx w)) = true →
  let branches := length (act_size (model pol)) in
  if negb (use_continuous_act (base pol)) && use_recurrent (base pol)
  then ∃ row prev rows,
         np_getitem (previous_vector_actions (brain_info w)) idx = Ok row
         ∧ gve_feed pol idx w !! model_prev_action = Some (FArr prev)
         ∧ data prev = data row
         ∧ shape prev = [rows; branches]
         ∧ (0 < branches)%nat
         ∧ (rows * branches = size_of (shape row))%nat
  else gve_feed pol idx w !! model_prev_action = None.
Proof.
  intros Hok branches. unfold gve_feed.
  apply gve_ok in Hok as (fd & w1 & Hfd & _ & ->).
  apply gve_feed_dict_prev_action in Hfd.
  destruct (negb (use_continuous_act (base pol)) && use_recurrent (base pol)); [|done].
  destruct Hfd as (row & prev & Hrow & Hre & Hfd).
  apply reshape_rows_inv in Hre as (Hpos & Hdata & rows & Hshape & Hrows).
  rewrite Nat2Z.id in Hshape, Hrows.
  exists row, prev, rows. split_and!; try done. subst branches. lia.
Qed.

Lemma get_value_estimates_binds_previous_actions_witness :
  gve_feed DiscreteSample.pol 1 DiscreteSample.start !! model_prev_action
  = Some (FArr (NDArray [1; 2]%nat [2%float; 1%float])).
Proof.
  pose proof (@get_value_estimates_binds_previous_actions counting_engine
                DiscreteSample.pol 1 DiscreteSample.start eq_refl) as Hprev.
  simpl in Hprev. destruct Hprev as (row & prev & rows & Hrow & Hfd & _).
  rewrite Hfd. vm_compute in Hfd. by injection Hfd as <-.
Defined.

(** ** Session calls made by inference *)

(** X10: [evaluate] and [get_value_estimates] make exactly one session call
    when they return and none when they raise: [evaluate] runs the endpoints
    of the inference dictionary, [get_value_estimates] the value endpoint
    alone, each under the feed dictionary it built. *)
Theorem inference_makes_one_session_call `{Engine} (pol : SACPolicy) (idx : Z)
    (w : world) :
  calls (sess (snd (evaluate pol w)))
  = calls (sess w)
    ++ (if is_ok (fst (evaluate pol w))
        then [EvRun (dict_values (inference_dict pol)) (eval_feed pol w)]
        else [])
  ∧ calls (sess (snd (get_value_estimates pol idx w)))
    = calls (sess w)
      ++ (if is_ok (fst (get_value_estimates pol idx w))
          then [EvRun [model_value] (gve_feed pol idx w)]
          else []).
Proof.
  split.
  - unfold eval_feed. rewrite evaluate_runs_feed_dict.
    destruct (keeps_frame_evaluate_feed_dict pol w) as (_ & _ & _ & _ & Hsess).
    destruct (evaluate_feed_dict pol w) as [[fd|e] w1]; cbv zeta; simpl in *.
    + by rewrite last_feed_snoc, Hsess.
    + by rewrite Hsess, app_nil_r.
  - unfold gve_feed, get_value_estimates, bind.
    destruct (keeps_frame_gve_feed_dict pol idx w) as (_ & _ & _ & _ & Hsess).
    destruct (gve_feed_dict pol idx w) as [[fd|e] w1]; simpl in *.
    + unfold with_sess, sess_run1, graph_run; simpl.
      by rewrite last_feed_snoc, Hsess.
    + by rewrite Hsess, app_nil_r.
Qed.

(** ** Inference leaves the trained variables alone *)

Lemma graph_run_inference `{Engine} (fetches : list fetch) (fd : feed_dict)
    (g : graph_state) :
  (∀ f, f ∈ fetches → f ∈ inference_endpoints) →
  online (snd (graph_run fetches fd g)) = online g
  ∧ target (snd (graph_run fetches fd g)) = target g
  ∧ last_reward (snd (graph_run fetches fd g)) = last_reward g.
Proof.
  unfold graph_run; simpl. revert g.
  induction fetches as [|f fetches IH]; intros g Hsub; simpl; [done|].
  destruct (IH (run_write fd g f)) as (-> & -> & ->).
  { intros f' Hf'. apply Hsub. by apply list_elem_of_further. }
  assert (f ∈ inference_endpoints) as Hf by apply Hsub, list_elem_of_here.
  unfold inference_endpoints in Hf.
  repeat (apply elem_of_cons in Hf as [-> | Hf]; [done|]).
  by apply elem_of_nil in Hf.
Qed.

Lemma inference_dict_endpoints (self : Policy) (trainer_params : TrainerParams)
    (is_training load : bool) (f : fetch) :
  f ∈ dict_values (inference_dict_of self trainer_params is_training load) →
  f ∈ inference_endpoints.
Proof.
  unfold inference_dict_of, inference_endpoints.
  destruct (use_recurrent self), (is_training && use_vec_obs self
                                  && cfg_normalize trainer_params && negb load);
    simpl; intros Hin;
    repeat (apply elem_of_cons in Hin as [-> | Hin];
            [apply (bool_decide_unpack _); reflexivity|]);
    by apply elem_of_nil in Hin.
Qed.

(** X12: a policy built by the constructor requests at inference only
    tensor reads and, at most, the normalisation update: never an optimiser
    step, a target initialisation or synchronisation, or the reward write.
    So [evaluate], [get_value_estimates] and [get_action] leave the online
    parameters, the target parameters and the rolling reward as they
    were. *)
Theorem inference_never_trains `{Engine} (self : Policy) (brain : BrainParameters)
    (trainer_params : TrainerParams) (is_training load : bool) :
  let pol := new_SACPolicy self brain trainer_params is_training load in
  (∀ f, f ∈ dict_values (inference_dict pol) → f ∈ inference_endpoints)
  ∧ ∀ (w : world) (idx : Z) (g' : graph_state),
      g' = graph (sess (snd (evaluate pol w)))
      ∨ g' = graph (sess (snd (get_value_estimates pol idx w)))
      ∨ g' = graph (sess (snd (get_action pol w))) →
      online g' = online (graph (sess w))
      ∧ target g' = target (graph (sess w))
      ∧ last_reward g' = last_reward (graph (sess w)).
Proof.
  intros pol.
  assert (∀ f, f ∈ dict_values (inference_dict pol) → f ∈ inference_endpoints) as Hsub.
  { intros f. apply inference_dict_endpoints. }
  split; [done|].
  assert (∀ w, online (graph (sess (snd (evaluate pol w)))) = online (graph (sess w))
               ∧ target (graph (sess (snd (evaluate pol w)))) = target (graph (sess w))
               ∧ last_reward (graph (sess (snd (evaluate pol w))))
                 = last_reward (graph (sess w))) as Heval.
  { intros w. rewrite evaluate_runs_feed_dict.
    destruct (keeps_frame_evaluate_feed_dict pol w) as (_ & _ & _ & _ & Hsess).
    destruct (evaluate_feed_dict pol w) as [[fd|e] w1]; cbv zeta; simpl in *.
    - rewrite <- Hsess. by apply graph_run_inference.
    - by rewrite Hsess. }
  intros w idx g' [-> | [-> | ->]].
  - apply Heval.
  - unfold get_value_estimates, bind.
    destruct (keeps_frame_gve_feed_dict pol idx w) as (_ & _ & _ & _ & Hsess).
    destruct (gve_feed_dict pol idx w) as [[fd|e] w1]; simpl in *.
    + unfold with_sess, sess_run1, graph_run; simpl. by rewrite Hsess.
    + by rewrite Hsess.
  - unfold get_action, bind, get_brain_info.
    destruct (agents (brain_info w)); simpl; [done|].
    destruct (Heval w) as (Ho & Ht & Hr).
    destruct (evaluate pol w) as [[run_out|e] w1]; simpl in *; done.
Qed.

(** ** The batch after evaluate *)

Lemma evaluate_feed_dict_world `{Engine} (pol : SACPolicy) (w : world) :
  snd (evaluate_feed_dict pol w)
  = World _ (batch_after_evaluate pol (brain_info w)) (sess w).
Proof.
  unfold evaluate_feed_dict, batch_after_evaluate, bind, get_brain_info, lift, ret.
  destruct (np_len (vector_observations (brain_info w))) as [n|e]; simpl;
    [|rewrite andb_false_r; by destruct w].
  rewrite andb_true_r.
  destruct (use_recurrent (base pol)); simpl; [|by destruct w].
  destruct (use_continuous_act (base pol)); simpl.
  - rewrite seed_empty_memory_spec.
    unfold seeded. by destruct (shape_at (memories (brain_info w)) 1); destruct w.
  - destruct (reshape (previous_vector_actions (brain_info w)) _) as [prev|e]; simpl;
      [|by destruct w].
    rewrite seed_empty_memory_spec.
    unfold seeded. by destruct (shape_at (memories (brain_info w)) 1); destruct w.
Qed.

Lemma seeded_idempotent (pol : SACPolicy) (bi : BrainInfo) :
  seeded pol (seeded pol bi) = seeded pol bi.
Proof.
  destruct (shape_at (memories bi) 1) as [[|width]|e] eqn:Hwidth.
  - rewrite (seeded_empty pol bi Hwidth).
    unfold seeded, shape_at, make_empty_memory; simpl.
    by destruct (m_size (base pol)).
  - assert (seeded pol bi = bi) as Hsame by (unfold seeded; by rewrite Hwidth).
    by rewrite !Hsame.
  - assert (seeded pol bi = bi) as Hsame by (unfold seeded; by rewrite Hwidth).
    by rewrite !Hsame.
Qed.

Lemma batch_after_evaluate_idempotent (pol : SACPolicy) (bi : BrainInfo) :
  batch_after_evaluate pol (batch_after_evaluate pol bi) = batch_after_evaluate pol bi.
Proof.
  unfold batch_after_evaluate at 2.
  destruct (use_recurrent (base pol) && _ && _) eqn:Hgate;
    [|unfold batch_after_evaluate; by rewrite Hgate].
  unfold batch_after_evaluate.
  assert (vector_observations (seeded pol bi) = vector_observations bi) as ->
    by (unfold seeded; by destruct (shape_at (memories bi) 1) as [[|?]|?]).
  rewrite seeded_previous_vector_actions, Hgate. apply seeded_idempotent.
Qed.

(** X11: whatever its outcome, [evaluate] leaves the caller's batch as
    [batch_after_evaluate] describes: untouched unless the policy is
    recurrent and the steps before the memory seed went through, and then
    with a zero-width memory replaced by the seed.  Calling [evaluate] again
    on the same batch object changes it no further. *)
Theorem evaluate_seeds_the_batch_once `{Engine} (pol : SACPolicy) (w : world) :
  brain_info (snd (evaluate pol w)) = batch_after_evaluate pol (brain_info w)
  ∧ brain_info (snd (evaluate pol (snd (evaluate pol w))))
    = brain_info (snd (evaluate pol w)).
Proof.
  assert (∀ w', brain_info (snd (evaluate pol w'))
                = batch_after_evaluate pol (brain_info w')) as Hafter.
  { intros w'. by rewrite evaluate_brain_info, evaluate_feed_dict_world. }
  split; [apply Hafter|].
  rewrite !Hafter. apply batch_after_evaluate_idempotent.
Qed.

(** ** The decision get_action returns *)

(** X13: for a policy built by the constructor, on a batch with at least
    one agent for which [evaluate] builds its feed dictionary, [get_action]
    returns a decision whose action and value are what the session read for
    the model's output and value endpoints under that dictionary, whose
    memory is what it read for memory-out when the policy is recurrent and
    [None] otherwise, and whose text is [None]. *)
Theorem get_action_decision_fields `{Engine} (self : Policy) (brain : BrainParameters)
    (trainer_params : TrainerParams) (is_training load : bool) (w : world)
    (decision : ActionInfo) (w' : world) :
  let pol := new_SACPolicy self brain trainer_params is_training load in
  agents (brain_info w) ≠ [] →
  get_action pol w = (Ok decision, w') →
  let read := run_read (eval_feed pol w) (graph (sess w)) in
  action decision = read model_output
  ∧ value decision = read model_value
  ∧ memory decision = (if use_recurrent self then read model_memory_out else PyNone)
  ∧ text decision = PyNone
  ∧ ∃ run_out, outputs decision = Some run_out
               ∧ run_out_get run_out "log_probs" = read model_all_log_probs
               ∧ run_out_get run_out "entropy" = read model_entropy
               ∧ run_out_get run_out "learning_rate" = read model_learning_rate.
Proof.
  intros pol Hagents Hget read. subst read. unfold eval_feed.
  unfold get_action, bind, get_brain_info in Hget.
  destruct (agents (brain_info w)) as [|agent rest]; [done|]. simpl in Hget.
  rewrite evaluate_runs_feed_dict in *.
  destruct (keeps_frame_evaluate_feed_dict pol w) as (_ & _ & _ & _ & Hsess).
  destruct (evaluate_feed_dict pol w) as [[fd|e] w1]; [|done].
  cbv zeta in *. simpl in Hget, Hsess |- *. rewrite last_feed_snoc.
  unfold ret in Hget. injection Hget as <- <-. simpl.
  rewrite Hsess. unfold pol, new_SACPolicy, inference_dict_of; simpl.
  destruct (use_recurrent self),
    (is_training && use_vec_obs self && cfg_normalize trainer_params && negb load);
    simpl; (split_and!; try reflexivity; eexists; split_and!; reflexivity).
Qed.

Lemma get_action_decision_fields_witness :
  ∃ decision w', get_action Sample.pol Sample.start = (Ok decision, w')
                 ∧ action decision = PyArr (NDArray [] [])
                 ∧ text decision = PyNone.
Proof.
  destruct (get_action Sample.pol Sample.start) as [[decision|e] w'] eqn:Hget.
  - exists decision, w'. split; [done|].
    destruct (@get_action_decision_fields counting_engine Sample.self
                Sample.brain_params Sample.config true false Sample.start decision w')
      as (Haction & _ & _ & Htext & _).
    + discriminate.
    + exact Hget.
    + split; [|done]. rewrite Haction. reflexivity.
  - vm_compute in Hget. discriminate.
Defined.

(** ** The agent index of get_value_estimates *)

Lemma np_getitem_wrap (a : ndarray) (n : nat) (rest : list nat) (idx : Z) :
  shape a = n :: rest → - Z.of_nat n ≤ idx < 0 →
  np_getitem a idx = np_getitem a (idx + Z.of_nat n).
Proof.
  intros Hshape Hidx. unfold np_getitem, py_index. rewrite Hshape.
  assert ((0 <=? idx) = false) as -> by (apply Z.leb_gt; lia).
  assert ((- Z.of_nat n <=? idx) && (idx <? 0) = true) as ->.
  { apply andb_true_iff. split; [apply Z.leb_le|apply Z.ltb_lt]; lia. }
  assert ((0 <=? idx + Z.of_nat n) && (idx + Z.of_nat n <? Z.of_nat n) = true) as ->.
  { apply andb_true_iff. split; [apply Z.leb_le|apply Z.ltb_lt]; lia. }
  simpl. by rewrite Z.add_comm.
Qed.

Lemma np_getitem_out_of_range (a : ndarray) (n : nat) (rest : list nat) (idx : Z) :
  shape a = n :: rest → idx < - Z.of_nat n ∨ Z.of_nat n ≤ idx →
  np_getitem a idx = Raise IndexError.
Proof.
  intros Hshape Hidx. unfold np_getitem, py_index. rewrite Hshape.
  assert ((0 <=? idx) && (idx <? Z.of_nat n) = false) as ->.
  { apply andb_false_iff. destruct Hidx; [left; apply Z.leb_gt|right; apply Z.ltb_ge]; lia. }
  assert ((- Z.of_nat n <=? idx) && (idx <? 0) = false) as ->.
  { apply andb_false_iff. destruct Hidx; [left; apply Z.leb_gt|right; apply Z.ltb_ge]; lia. }
  done.
Qed.

Lemma seeded_memory_rows (pol : SACPolicy) (bi : BrainInfo) (n : nat) :
  batch_rows n bi → ∃ rest, shape (memories (seeded pol bi)) = n :: rest.
Proof.
  intros (_ & _ & Hmem & _ & Hagents). unfold seeded.
  destruct (shape_at (memories bi) 1) as [[|width]|e]; try done.
  simpl. rewrite Hagents. by eexists.
Qed.

Lemma gve_visual_wrap `{Engine} (pol : SACPolicy) (n : nat) (idx : Z)
    (obs : list ndarray) :
  Forall (λ o, ∃ rest, shape o = n :: rest) obs → - Z.of_nat n ≤ idx < 0 →
  ∀ (i : nat) (fd : feed_dict),
    gve_visual pol idx i obs fd = gve_visual pol (idx + Z.of_nat n) i obs fd.
Proof.
  intros Hrows Hidx. induction Hrows as [|o obs [rest Hshape] _ IH]; intros i fd;
    simpl; [done|].
  rewrite (np_getitem_wrap o n rest idx Hshape Hidx).
  destruct (np_getitem o (idx + Z.of_nat n)); simpl; [|done].
  destruct (list_getitem (visual_in (model pol)) i); simpl; [|done].
  apply IH.
Qed.

Lemma gve_feed_dict_wrap `{Engine} (pol : SACPolicy) (n : nat) (idx : Z) (w : world) :
  batch_rows n (brain_info w) →
  - Z.of_nat n ≤ idx < 0 →
  gve_feed_dict pol idx w = gve_feed_dict pol (idx + Z.of_nat n) w.
Proof.
  intros Hrows Hidx.
  pose proof (seeded_memory_rows pol _ _ Hrows) as [rest_seed Hseed].
  destruct Hrows as (Hvis & [rest_vec Hvec] & _ & [rest_prev Hprev] & _).
  unfold gve_feed_dict, bind, get_brain_info, lift, ret.
  rewrite (gve_visual_wrap pol n idx _ Hvis Hidx).
  destruct (gve_visual pol (idx + Z.of_nat n) 0 _ _) as [fd1|e]; [|done].
  rewrite (np_getitem_wrap _ n rest_vec idx Hvec Hidx).
  destruct (use_vec_obs (base pol)), (use_recurrent (base pol));
    destruct (use_continuous_act (base pol)); simpl;
    try destruct (np_getitem (vector_observations (brain_info w)) _); simpl;
    try done;
    rewrite seed_empty_memory_spec;
    (destruct (shape_at (memories (brain_info w)) 1); [|done]); simpl;
    rewrite (np_getitem_wrap _ n rest_seed idx Hseed Hidx);
    (destruct (np_getitem (memories (seeded pol (brain_info w))) _); [|done]);
    simpl; try done;
    rewrite seeded_previous_vector_actions;
    by rewrite (np_getitem_wrap _ n rest_prev idx Hprev Hidx).
Qed.

(** X14: on a batch with one leading entry per agent in every array, a
    negative agent index counts from the end: [get_value_estimates] with
    index [idx] between [-n] and [-1] does exactly what it does with
    [idx + n], outcome, batch and session alike. *)
Theorem get_value_estimates_negative_index `{Engine} (pol : SACPolicy) (n : nat)
    (idx : Z) (w : world) :
  batch_rows n (brain_info w) →
  - Z.of_nat n ≤ idx < 0 →
  get_value_estimates pol idx w = get_value_estimates pol (idx + Z.of_nat n) w.
Proof.
  intros Hrows Hidx. unfold get_value_estimates, bind.
  by rewrite (gve_feed_dict_wrap pol n idx w Hrows Hidx).
Qed.

Lemma get_value_estimates_negative_index_witness :
  get_value_estimates Sample.pol (-1) Sample.start
  = get_value_estimates Sample.pol 1 Sample.start.
Proof.
  apply (@get_value_estimates_negative_index counting_engine Sample.pol 2 (-1)
           Sample.start).
  - unfold batch_rows; simpl. split_and!; try (by eexists).
    repeat constructor. by eexists.
  - lia.
Defined.

(** X15: on a batch with one leading entry per agent in every array, an
    agent index outside [-n, n) makes
    [get_value_estimates] raise [IndexError] as soon as the policy indexes
    anything (a visual stream, the vector observation or the memory), and
    the session is not called. *)
Theorem get_value_estimates_index_out_of_range `{Engine} (pol : SACPolicy) (n : nat)
    (idx : Z) (w : world) :
  batch_rows n (brain_info w) →
  idx < - Z.of_nat n ∨ Z.of_nat n ≤ idx →
  visual_observations (brain_info w) ≠ []
  ∨ use_vec_obs (base pol) = true ∨ use_recurrent (base pol) = true →
  fst (get_value_estimates pol idx w) = Raise IndexError
  ∧ sess (snd (get_value_estimates pol idx w)) = sess w.
Proof.
  intros Hrows Hidx Hsome.
  assert (fst (gve_feed_dict pol idx w) = Raise IndexError) as Hraise.
  { pose proof (seeded_memory_rows pol _ _ Hrows) as [rest_seed Hseed].
    destruct Hrows as (Hvis & [rest_vec Hvec] & _ & _ & _).
    unfold gve_feed_dict, bind, get_brain_info, lift, ret.
    destruct (visual_observations (brain_info w)) as [|o obs] eqn:Hobs; simpl.
    - destruct Hsome as [? | Hsome]; [done|].
      rewrite (np_getitem_out_of_range _ n rest_vec idx Hvec Hidx).
      destruct (use_vec_obs (base pol)); simpl; [done|].
      destruct Hsome as [? | Hrec]; [done|]. rewrite Hrec.
      rewrite seed_empty_memory_spec. unfold shape_at.
      destruct (shape (memories (brain_info w)) !! 1%nat); [|done]. simpl.
      by rewrite (np_getitem_out_of_range _ n rest_seed idx Hseed Hidx).
    - apply Forall_cons in Hvis as [[rest Hshape] _].
      by rewrite (np_getitem_out_of_range _ n rest idx Hshape Hidx). }
  destruct (keeps_frame_gve_feed_dict pol idx w) as (_ & _ & _ & _ & Hsess).
  unfold get_value_estimates, bind.
  destruct (gve_feed_dict pol idx w) as [[fd|e] w1]; simpl in *; [done|].
  by injection Hraise as ->.
Qed.

Lemma get_value_estimates_index_out_of_range_witness :
  fst (get_value_estimates Sample.pol 2 Sample.start) = Raise IndexError
  ∧ sess (snd (get_value_estimates Sample.pol 2 Sample.start)) = sess Sample.start.
Proof.
  apply (@get_value_estimates_index_out_of_range counting_engine Sample.pol 2 2
           Sample.start).
  - unfold batch_rows; simpl. split_and!; try (by eexists).
    repeat constructor. by eexists.
  - right. lia.
  - left. discriminate.
Defined.

(** ** Vector observations and visual columns in update *)

(** X16: when vector observations are in use, a feed dictionary that
    [update] built binds the vector input and the next-step vector input to
    the "vector_obs" and "next_vector_in" columns rearranged, all elements
    in order, into rows of [vec_obs_size] values; the configured size is
    positive, or no feed dictionary could have been built. *)
Theorem update_binds_vector_observations_as_rows `{Engine} (pol : SACPolicy)
    (mini_batch : gmap string ndarray) (num_sequences : Z) (fd : feed_dict) :
  update_feed_dict pol mini_batch num_sequences = Ok fd →
  use_vec_obs (base pol) = true →
  let width := Z.to_nat (vec_obs_size (base pol)) in
  0 < vec_obs_size (base pol)
  ∧ (∃ obs v rows,
       mini_batch !! "vector_obs"%string = Some obs
       ∧ fd !! model_vector_in = Some (FArr v)
       ∧ data v = data obs ∧ shape v = [rows; width]
       ∧ (rows * width = size_of (shape obs))%nat)
  ∧ (∃ next_obs nv rows,
       mini_batch !! "next_vector_in"%string = Some next_obs
       ∧ fd !! model_next_vector_in = Some (FArr nv)
       ∧ data nv = data next_obs ∧ shape nv = [rows; width]
       ∧ (rows * width = size_of (shape next_obs))%nat).
Proof.
  intros Heq Hvec_on width.
  destruct (update_feed_dict_stages pol mini_batch num_sequences fd Heq)
    as (masks & done_col & fd1 & fd2 & fd3 & fd5 & fd6 & _ & _ & _ & _ & Hvec & Hvis
        & Hmem & ->).
  rewrite Hvec_on in Hvec.
  destruct Hvec as (obs & v & next_obs & nv & Hobs & Hv & Hnext & Hnv & ->).
  assert (∀ p, p = model_vector_in ∨ p = model_next_vector_in →
               <[model_dones_holder := FArr (flatten done_col)]> fd6 !! p
               = <[model_next_vector_in := FArr nv]>
                   (<[model_vector_in := FArr v]> fd2) !! p) as Hlater.
  { intros p Hp.
    rewrite lookup_insert_ne by (destruct Hp as [-> | ->]; done).
    transitivity (fd5 !! p).
    { destruct (use_recurrent (base pol)); [|by subst].
      destruct Hmem as (? & ? & _ & _ & ->).
      apply lookup_insert_ne. destruct Hp as [-> | ->]; done. }
    destruct (0 <? vis_obs_size (model pol)); [|by subst].
    destruct Hvis as (_ & _ & Hother).
    apply Hother; intros i _; destruct Hp as [-> | ->]; done. }
  apply reshape_rows_inv in Hv as (Hpos & Hdata & rows & Hshape & Hrows).
  apply reshape_rows_inv in Hnv as (_ & Hdata' & rows' & Hshape' & Hrows').
  split_and!; [done| |].
  - exists obs, v, rows. split_and!; try done.
    rewrite Hlater by (by left). by lookups.
  - exists next_obs, nv, rows'. split_and!; try done.
    rewrite Hlater by (by right). by lookups.
Qed.

Lemma update_binds_vector_observations_as_rows_witness :
  ∃ v, Sample.update_feed !! model_vector_in = Some (FArr v)
       ∧ shape v = [4; 2]%nat.
Proof.
  destruct (@update_binds_vector_observations_as_rows counting_engine Sample.pol
              Sample.mini_batch 2 Sample.update_feed)
    as (_ & (obs & v & rows & _ & Hfd & _ & _) & _).
  - vm_compute. reflexivity.
  - reflexivity.
  - exists v. split; [done|].
    vm_compute in Hfd. injection Hfd as <-. reflexivity.
Defined.

Lemma visual_binding_ok_inv `{Engine} (pol : SACPolicy) (obs bound : ndarray) :
  1 < sequence_length (base pol) → use_recurrent (base pol) = true →
  visual_binding pol obs = Ok bound →
  ∃ B L W H' C, shape obs = [B; L; W; H'; C] ∧ (0 < W * H' * C)%nat.
Proof.
  intros Hseq Hrec. unfold visual_binding.
  apply Z.ltb_lt in Hseq. rewrite Hseq, Hrec. simpl.
  destruct (shape obs) as [|B [|L [|W [|H' [|C [|? ?]]]]]] eqn:Hshape; simpl; try done.
  rewrite reshape_collapse, Hshape. cbv zeta.
  destruct (size_of [W; H'; C] =? 0)%nat eqn:Hzero; simpl; [done|].
  apply Nat.eqb_neq in Hzero. intros _. exists B, L, W, H', C. split; [done|].
  simpl in Hzero. nia.
Qed.

(** X17: with a sequence length above 1 and recurrent mode on, every visual
    column that [update] reads must have five dimensions and images with no
    zero dimension: given a column of another rank, or of shape
    (B, L, W, H, C) with W*H*C = 0, [update] raises and runs nothing. *)
Theorem update_rejects_malformed_visual_column `{Engine} (pol : SACPolicy)
    (mini_batch : gmap string ndarray) (i : nat) (obs : ndarray) :
  0 < vis_obs_size (model pol) →
  1 < sequence_length (base pol) → use_recurrent (base pol) = true →
  (i < visual_in_count (model pol))%nat →
  mini_batch !! visual_obs_key i = Some obs →
  length (shape obs) ≠ 5%nat
  ∨ (∃ B L W H' C, shape obs = [B; L; W; H'; C] ∧ (W * H' * C = 0)%nat) →
  ∀ num_sequences ut s, ∃ e, update pol mini_batch num_sequences ut s = (Raise e, s).
Proof.
  intros Hvis_on Hseq Hrec Hi Hobs Hbad num_sequences ut s.
  destruct (update_feed_dict pol mini_batch num_sequences) as [fd|e] eqn:Heq;
    [|exists e; by apply update_raises_without_feed_dict].
  exfalso.
  destruct (update_feed_dict_stages pol mini_batch num_sequences fd Heq)
    as (masks & done_col & fd1 & fd2 & fd3 & fd5 & fd6 & _ & _ & _ & _ & _ & Hvis & _).
  apply Z.ltb_lt in Hvis_on. rewrite Hvis_on in Hvis.
  destruct Hvis as (Hcur & _ & _).
  destruct (Hcur i Hi) as (obs' & bound & Hobs' & Hbound & _).
  assert (obs' = obs) as -> by congruence.
  apply (visual_binding_ok_inv pol obs bound Hseq Hrec) in Hbound
    as (B & L & W & H' & C & Hshape & Hpos).
  destruct Hbad as [Hrank | (B' & L' & W' & H'' & C' & Hshape' & Hzero)].
  - apply Hrank. by rewrite Hshape.
  - rewrite Hshape in Hshape'. injection Hshape' as <- <- <- <- <-. lia.
Qed.

Lemma update_rejects_malformed_visual_column_witness :
  ∃ e, update Sample.pol
         (<["visual_obs0"%string := Sample.zeros [4; 1; 1; 1]]> Sample.mini_batch)
         2 None (sess Sample.start)
       = (Raise e, sess Sample.start).
Proof.
  apply (@update_rejects_malformed_visual_column counting_engine Sample.pol
           (<["visual_obs0"%string := Sample.zeros [4; 1; 1; 1]]> Sample.mini_batch)
           0%nat (Sample.zeros [4; 1; 1; 1])).
  - reflexivity.
  - reflexivity.
  - reflexivity.
  - simpl. lia.
  - reflexivity.
  - left. simpl. lia.
Defined.

(** ** The batch size evaluate binds *)

(** X18: [evaluate] reads the batch size off the vector observations: when
    it returns, the batch size it bound is the number of rows of
    [vector_observations], whatever the agents list holds; when
    [vector_observations] has no dimension it raises [TypeError] and
    leaves the batch and the session as they were. *)
Theorem evaluate_batch_size_is_vector_rows `{Engine} (pol : SACPolicy) (w : world) :
  match shape (vector_observations (brain_info w)) with
  | rows :: _ =>
      is_ok (fst (evaluate pol w)) = true →
      eval_feed pol w !! model_batch_size = Some (FInt (Z.of_nat rows))
  | [] => evaluate pol w = (Raise TypeError, w)
  end.
Proof.
  destruct (shape (vector_observations (brain_info w))) as [|rows rest] eqn:Hshape.
  - unfold evaluate, evaluate_feed_dict, bind, get_brain_info, lift, np_len.
    by rewrite Hshape.
  - intros Hok. unfold eval_feed.
    apply evaluate_ok in Hok as (fd & w1 & Hfd & _ & ->).
    apply evaluate_feed_dict_inv in Hfd as (n & Hn & Hbs & _).
    unfold np_len in Hn. rewrite Hshape in Hn. by injection Hn as <-.
Qed.

Lemma evaluate_batch_size_is_vector_rows_witness :
  eval_feed Sample.pol Sample.start !! model_batch_size = Some (FInt 2).
Proof.
  pose proof (@evaluate_batch_size_is_vector_rows counting_engine Sample.pol
                Sample.start) as Hrows.
  simpl in Hrows. apply Hrows. reflexivity.
Defined.
